(** * Extension Inventory Reporter: a shallow embedding of
      [scripts/analyze_extensions.py] and the properties of its report.

    The script reads a JSON mapping from extension identifier to metadata,
    turns it into a list of records sorted by name, classifies the records by
    keyword, and writes a listing document and an analysis document.

    Python values are modelled as the script has them: a [str] is a sequence of
    Unicode code points, a [dict] is an insertion-ordered association list, an
    [int] is a [Z], and the documents are built by string concatenation. *)

From Stdlib Require Import List ZArith NArith Bool Lia Permutation Sorted.
From Stdlib Require Import Ascii DecimalString Floats.
From Stdlib Require String.
Import String.StringSyntax ListNotations.
Local Open Scope string_scope.
Local Open Scope list_scope.
#[local] Set Warnings "-register-all".

(** ** Strings *)

(** A Python [str]: a sequence of code points. [len] is [length], slicing
    [s[:n]] is [firstn n s], [+] is [++]. *)
Definition str := list N.

(** UTF-8 decoding of the bytes of a literal, so that the texts of the script
    can be written down as they stand in its source. *)
Fixpoint utf8_decode (bs : list N) : str :=
  match bs with
  | [] => []
  | b :: r =>
      if (b <? 128)%N then b :: utf8_decode r
      else if (b <? 224)%N then
        match r with
        | c1 :: r1 => ((b - 192) * 64 + (c1 - 128))%N :: utf8_decode r1
        | [] => []
        end
      else if (b <? 240)%N then
        match r with
        | c1 :: c2 :: r2 =>
            ((b - 224) * 4096 + (c1 - 128) * 64 + (c2 - 128))%N :: utf8_decode r2
        | _ => []
        end
      else
        match r with
        | c1 :: c2 :: c3 :: r3 =>
            ((b - 240) * 262144 + (c1 - 128) * 4096 + (c2 - 128) * 64 + (c3 - 128))%N
              :: utf8_decode r3
        | _ => []
        end
  end.

Definition utf8 (s : String.string) : str :=
  utf8_decode (map N_of_ascii (String.list_ascii_of_string s)).

Definition nl : str := [10%N].
Definition space : N := 32%N.

(** [str(n)] for an [int]. *)
Definition str_of_int (z : Z) : str :=
  utf8 (NilZero.string_of_int (Z.to_int z)).

(** [len(x)] as a Python [int]. *)
Definition len {A : Type} (l : list A) : Z := Z.of_nat (length l).

(** [c * n] for a one-character string [c]. *)
Definition times (c : String.string) (n : nat) : str := concat (repeat (utf8 c) n).

(** [f"{s:<w}"] for a [str]: left-aligned, padded with spaces to width [w],
    never cut. *)
Definition ljust (w : nat) (s : str) : str := s ++ repeat space (w - length s).

Fixpoint str_eqb (s t : str) : bool :=
  match s, t with
  | [], [] => true
  | a :: s', b :: t' => (a =? b)%N && str_eqb s' t'
  | _, _ => false
  end.

(** [s < t] on [str]: code point by code point, a proper prefix is smaller. *)
Fixpoint str_ltb (s t : str) : bool :=
  match s, t with
  | _, [] => false
  | [], _ :: _ => true
  | a :: s', b :: t' =>
      if (a <? b)%N then true
      else if (b <? a)%N then false
      else str_ltb s' t'
  end.

Fixpoint starts_with (p s : str) : bool :=
  match p, s with
  | [], _ => true
  | _ :: _, [] => false
  | a :: p', b :: s' => (a =? b)%N && starts_with p' s'
  end.

(** [p in s] for two [str]. *)
Fixpoint contains (p s : str) : bool :=
  starts_with p s
  || match s with
     | [] => false
     | _ :: s' => contains p s'
     end.

(** [s.endswith(p)]. *)
Definition ends_with (p s : str) : bool := starts_with (rev p) (rev s).

(** [s.replace(" ", "")]. *)
Definition remove_spaces (s : str) : str :=
  filter (fun c => negb (c =? space)%N) s.

(** What [str.lower] does on ASCII text: [A]..[Z] go to [a]..[z]. *)
Definition ascii_lower_char (c : N) : N :=
  if ((65 <=? c) && (c <=? 90))%N then (c + 32)%N else c.

Definition ascii_lower (s : str) : str := map ascii_lower_char s.

Definition is_ascii (s : str) : bool := forallb (fun c => (c <? 128)%N) s.

(** ** JSON documents, as [json.load] returns them *)

Inductive json : Type :=
| JNull
| JBool (b : bool)
| JInt (z : Z)
| JFloat (f : float)
| JStr (s : str)
| JList (l : list json)
| JDict (d : list (str * json)).

(** A Python [dict] with [str] keys: the pairs in insertion order. *)
Definition dict (V : Type) := list (str * V).

Fixpoint dict_lookup {V : Type} (k : str) (d : dict V) : option V :=
  match d with
  | [] => None
  | (k', v) :: d' => if str_eqb k' k then Some v else dict_lookup k d'
  end.

(** [d.get(k, default)]. *)
Definition dict_get {V : Type} (d : dict V) (k : str) (default : V) : V :=
  match dict_lookup k d with
  | Some v => v
  | None => default
  end.

(** [k in d]. *)
Definition dict_mem {V : Type} (k : str) (d : dict V) : bool :=
  match dict_lookup k d with
  | Some _ => true
  | None => false
  end.

(** [d[k] = v]: an existing key keeps its place, a new key goes last. *)
Fixpoint dict_set {V : Type} (k : str) (v : V) (d : dict V) : dict V :=
  match d with
  | [] => [(k, v)]
  | (k', v') :: d' =>
      if str_eqb k' k then (k', v) :: d' else (k', v') :: dict_set k v d'
  end.

(** [d.values()]. *)
Definition dict_values {V : Type} (d : dict V) : list V := map snd d.

(** Truth value of a JSON value, as [if v] and [not v] test it. *)
Definition truthy (v : json) : bool :=
  match v with
  | JNull => false
  | JBool b => b
  | JInt z => negb (z =? 0)%Z
  | JFloat f => negb (PrimFloat.eqb f PrimFloat.zero)
  | JStr s => negb (Nat.eqb (length s) 0)
  | JList l => negb (Nat.eqb (length l) 0)
  | JDict d => negb (Nat.eqb (length d) 0)
  end.

(** [isinstance(value, dict)]. *)
Definition is_dict (v : json) : bool :=
  match v with
  | JDict _ => true
  | _ => false
  end.

(** ** Records *)

(** The dict built for one extension (lines 32-38). [id] is a key of the input
    mapping, so a [str]. [enabled] is whatever JSON value the entry holds and is
    only ever tested for truth. [name], [publisher] and [version] are used as
    [str] by every later stage ([len], slicing, [.lower()], the [:<35] format);
    the model carries them as [str] and covers the inputs in which they are
    strings, as the input schema has them. *)
Record ext : Type := mk_ext {
  id : str;
  name : str;
  publisher : str;
  version : str;
  enabled : json
}.

Definition NA : json := JStr (utf8 "N/A").

(** [value.get(k, "N/A")], defined when the result is a [str]. *)
Definition get_text (value : dict json) (k : String.string) : option str :=
  match dict_get value (utf8 k) NA with
  | JStr s => Some s
  | _ => None
  end.

(** The record of one entry whose value is the dict [value]. *)
Definition make_ext (key : str) (value : dict json) : option ext :=
  match get_text value "name", get_text value "publisher", get_text value "version" with
  | Some n, Some p, Some v =>
      Some (mk_ext key n p v (dict_get value (utf8 "enabled") (JBool true)))
  | _, _, _ => None
  end.

(** The loop of lines 28-39 over [data.items()], [acc] being the list
    [extensions] built so far. [None]: a field outside the schema. *)
Fixpoint build_from (acc : list ext) (items : list (str * json)) : option (list ext) :=
  match items with
  | [] => Some acc
  | (key, value) :: rest =>
      match value with
      | JDict d =>
          match make_ext key d with
          | Some e => build_from (acc ++ [e]) rest
          | None => None
          end
      | _ => build_from acc rest
      end
  end.

Definition build (items : list (str * json)) : option (list ext) :=
  build_from [] items.

(** ** Sorting by name (line 42) *)

(** [list.sort(key=...)] is a stable sort that compares keys with [<] only.
    The model is the stable insertion sort; on a total order every stable sort
    returns the same list. *)
Fixpoint insert_by_name (x : ext) (l : list ext) : list ext :=
  match l with
  | [] => [x]
  | y :: l' =>
      if str_ltb (name y) (name x) then y :: insert_by_name x l'
      else x :: l
  end.

Fixpoint sort_by_name (l : list ext) : list ext :=
  match l with
  | [] => []
  | x :: l' => insert_by_name x (sort_by_name l')
  end.

(** The list [extensions] after line 42. *)
Definition extensions (items : list (str * json)) : option (list ext) :=
  option_map sort_by_name (build items).

(** ** The listing document (lines 47-106) *)

(** [enumerate(l, start)]. *)
Fixpoint enumerate {A : Type} (start : Z) (l : list A) : list (Z * A) :=
  match l with
  | [] => []
  | x :: l' => (start, x) :: enumerate (start + 1) l'
  end.

(** [for x in l: out += f(x)]. *)
Definition append_each {A : Type} (f : A -> str) (l : list A) (out : str) : str :=
  fold_left (fun acc x => acc ++ f x) l out.

Definition rule : str := times "=" 100 ++ nl.

(** The status token of line 55. *)
Definition status (e : ext) : str :=
  if truthy (enabled e) then utf8 "활성화" else utf8 "비활성화".

(** Line 56: the id as it goes into its cell. *)
Definition ext_id (e : ext) : str :=
  if (50 <? len (id e))%Z then firstn 47 (id e) ++ utf8 "..." else id e.

(** Line 57: the name as it goes into its cell. *)
Definition ext_name (e : ext) : str :=
  if (35 <? len (name e))%Z then firstn 32 (name e) ++ utf8 "..." else name e.

(** Line 58: one table row. *)
Definition table_row (row : Z * ext) : str :=
  let (idx, e) := row in
  ljust 6 (str_of_int idx) ++ [space] ++ ljust 50 (ext_id e) ++ [space]
  ++ ljust 35 (ext_name e) ++ [space] ++ ljust 20 (publisher e) ++ [space]
  ++ ljust 15 (version e) ++ [space] ++ ljust 10 (status e) ++ nl.

(** Lines 47-52. [now] is [datetime.now().strftime('%Y-%m-%d %H:%M:%S')]. *)
Definition listing_head (now : str) (exts : list ext) : str :=
  utf8 "Cursor 확장 프로그램 목록" ++ nl
  ++ utf8 "생성일: " ++ now ++ nl
  ++ utf8 "총 확장 프로그램 수: " ++ str_of_int (len exts) ++ nl ++ nl
  ++ rule
  ++ ljust 6 (utf8 "번호") ++ [space] ++ ljust 50 (utf8 "ID") ++ [space]
  ++ ljust 35 (utf8 "이름") ++ [space] ++ ljust 20 (utf8 "게시자") ++ [space]
  ++ ljust 15 (utf8 "버전") ++ [space] ++ ljust 10 (utf8 "상태") ++ nl
  ++ rule.

Section Classifier.

(** [str.lower] is the interpreter's, driven by the Unicode case tables; the
    classifier is stated over it. *)
Variable lower : str -> str.

(** ** Categories (lines 65-91) *)

Definition is_language (e : ext) : bool :=
  contains (utf8 "language") (lower (id e))
  || contains (utf8 "language") (lower (name e))
  || contains (utf8 "syntax") (lower (id e)).

Definition is_theme (e : ext) : bool :=
  contains (utf8 "theme") (lower (id e)) || contains (utf8 "theme") (lower (name e)).

Definition is_git (e : ext) : bool :=
  contains (utf8 "git") (lower (id e)) || contains (utf8 "git") (lower (name e)).

Definition is_debug (e : ext) : bool :=
  contains (utf8 "debug") (lower (id e)) || contains (utf8 "debug") (lower (name e)).

Definition format_words : list str :=
  [utf8 "formatter"; utf8 "linter"; utf8 "prettier"; utf8 "eslint"].

Definition is_format (e : ext) : bool :=
  existsb (fun x => contains x (lower (id e))) format_words.

Definition language_exts (exts : list ext) : list ext := filter is_language exts.
Definition theme_exts (exts : list ext) : list ext := filter is_theme exts.
Definition git_exts (exts : list ext) : list ext := filter is_git exts.
Definition debug_exts (exts : list ext) : list ext := filter is_debug exts.
Definition format_exts (exts : list ext) : list ext := filter is_format exts.

(** Lines 98-105. *)
Definition other_count (exts : list ext) : Z :=
  (len exts - len (language_exts exts) - len (theme_exts exts)
   - len (git_exts exts) - len (debug_exts exts) - len (format_exts exts))%Z.

(** Lines 61-106: the category breakdown that closes the listing. *)
Definition listing_tail (exts : list ext) : str :=
  nl ++ nl ++ rule
  ++ utf8 "카테고리별 분류" ++ nl
  ++ times "=" 100 ++ nl ++ nl
  ++ utf8 "언어 관련: " ++ str_of_int (len (language_exts exts)) ++ utf8 "개" ++ nl
  ++ utf8 "테마 관련: " ++ str_of_int (len (theme_exts exts)) ++ utf8 "개" ++ nl
  ++ utf8 "Git 관련: " ++ str_of_int (len (git_exts exts)) ++ utf8 "개" ++ nl
  ++ utf8 "디버깅 관련: " ++ str_of_int (len (debug_exts exts)) ++ utf8 "개" ++ nl
  ++ utf8 "포맷팅/린팅 관련: " ++ str_of_int (len (format_exts exts)) ++ utf8 "개" ++ nl
  ++ utf8 "기타: " ++ str_of_int (other_count exts) ++ utf8 "개" ++ nl.

(** The text written to [output_path]. *)
Definition output (now : str) (exts : list ext) : str :=
  append_each table_row (enumerate 1 exts) (listing_head now exts)
  ++ listing_tail exts.

(** ** Disabled records and duplicate names (lines 120-137) *)

Definition disabled_exts (exts : list ext) : list ext :=
  filter (fun e => negb (truthy (enabled e))) exts.

(** Line 132: the key a name is grouped under. *)
Definition name_key (e : ext) : str := remove_spaces (lower (name e)).

(** One turn of the loop of lines 131-135. *)
Definition add_to_groups (groups : dict (list ext)) (e : ext) : dict (list ext) :=
  let key := name_key e in
  let groups1 := if negb (dict_mem key groups) then dict_set key [] groups else groups in
  dict_set key (dict_get groups1 key [] ++ [e]) groups1.

Definition name_groups (exts : list ext) : dict (list ext) :=
  fold_left add_to_groups exts [].

(** Line 137. *)
Definition duplicates (exts : list ext) : list (list ext) :=
  filter (fun g => (1 <? len g)%Z) (dict_values (name_groups exts)).

(** Lines 189-196. *)
Definition recommended_removals (exts : list ext) : Z :=
  let r := 0%Z in
  let r := match disabled_exts exts with
           | [] => r
           | _ :: _ => (r + len (disabled_exts exts))%Z
           end in
  fold_left (fun r group => if (1 <? len group)%Z then (r + (len group - 1))%Z else r)
            (duplicates exts) r.

(** Line 205: the figure reported as kept. *)
Definition kept (exts : list ext) : Z := (len exts - recommended_removals exts)%Z.

(** ** The analysis document (lines 115-205) *)

Definition numbered (row : Z * ext) : str :=
  let (idx, e) := row in
  utf8 "   " ++ str_of_int idx ++ utf8 ". " ++ name e ++ utf8 " (" ++ id e ++ utf8 ")" ++ nl.

Definition bracket_status (e : ext) : str :=
  if truthy (enabled e) then utf8 "[활성화]" else utf8 "[비활성화]".

Definition group_member (e : ext) : str :=
  utf8 "     - " ++ id e ++ utf8 " (" ++ publisher e ++ utf8 ", v" ++ version e
  ++ utf8 ") " ++ bracket_status e ++ nl.

(** [group[0]['name']]; every group of [duplicates] has a first member. *)
Definition first_name (group : list ext) : str :=
  match group with
  | e :: _ => name e
  | [] => []
  end.

Definition group_block (row : Z * list ext) : str :=
  let (idx, group) := row in
  append_each group_member group
    (utf8 "   그룹 " ++ str_of_int idx ++ utf8 ": " ++ first_name group
     ++ utf8 " (" ++ str_of_int (len group) ++ utf8 "개 버전)" ++ nl)
  ++ utf8 "   → 하나만 유지하고 나머지는 제거 권장" ++ nl.

Definition finding_disabled (exts : list ext) : str :=
  nl ++ utf8 "1. 비활성화된 확장 프로그램: " ++ str_of_int (len (disabled_exts exts))
  ++ utf8 "개" ++ nl
  ++ match disabled_exts exts with
     | _ :: _ =>
         append_each numbered (enumerate 1 (disabled_exts exts)) []
         ++ utf8 "   → 제거 권장: 비활성화된 확장 프로그램은 제거해도 됩니다." ++ nl
     | [] => utf8 "   → 모든 확장 프로그램이 활성화되어 있습니다." ++ nl
     end.

Definition finding_duplicates (exts : list ext) : str :=
  nl ++ utf8 "2. 중복 가능성 있는 확장 프로그램: " ++ str_of_int (len (duplicates exts))
  ++ utf8 "개 그룹" ++ nl
  ++ match duplicates exts with
     | _ :: _ => append_each group_block (enumerate 1 (duplicates exts)) []
     | [] => utf8 "   → 중복된 확장 프로그램이 없습니다." ++ nl
     end.

Definition finding_themes (exts : list ext) : str :=
  nl ++ utf8 "3. 테마 확장 프로그램: " ++ str_of_int (len (theme_exts exts)) ++ utf8 "개" ++ nl
  ++ (if (3 <? len (theme_exts exts))%Z then
        utf8 "   → 테마가 많습니다. 자주 사용하지 않는 테마는 제거를 고려해보세요." ++ nl
        ++ append_each numbered (enumerate 1 (theme_exts exts)) []
      else utf8 "   → 적절한 수준입니다." ++ nl).

Definition finding_languages (exts : list ext) : str :=
  nl ++ utf8 "4. 언어 확장 프로그램: " ++ str_of_int (len (language_exts exts)) ++ utf8 "개" ++ nl
  ++ (if (10 <? len (language_exts exts))%Z then
        utf8 "   → 언어 확장 프로그램이 많습니다. 사용하지 않는 언어는 제거를 고려해보세요." ++ nl
      else utf8 "   → 적절한 수준입니다." ++ nl).

Definition finding_format (exts : list ext) : str :=
  nl ++ utf8 "5. 포맷팅/린팅 관련: " ++ str_of_int (len (format_exts exts)) ++ utf8 "개" ++ nl
  ++ (if (5 <? len (format_exts exts))%Z then
        utf8 "   → 포맷터/린터가 많습니다. 중복 기능이 있는지 확인해보세요." ++ nl
        ++ append_each numbered (enumerate 1 (format_exts exts)) []
      else []).

Definition finding_git (exts : list ext) : str :=
  nl ++ utf8 "6. Git 관련: " ++ str_of_int (len (git_exts exts)) ++ utf8 "개" ++ nl
  ++ (if (3 <? len (git_exts exts))%Z then
        utf8 "   → Git 확장 프로그램이 많습니다. 중복 기능이 있는지 확인해보세요." ++ nl
      else []).

Definition finding_debug (exts : list ext) : str :=
  nl ++ utf8 "7. 디버깅 관련: " ++ str_of_int (len (debug_exts exts)) ++ utf8 "개" ++ nl.

(** Lines 185-205. *)
Definition summary (exts : list ext) : str :=
  nl ++ rule ++ utf8 "정리 권장 사항" ++ nl ++ rule
  ++ match disabled_exts exts with
     | _ :: _ =>
         utf8 "- 비활성화된 확장 프로그램 " ++ str_of_int (len (disabled_exts exts))
         ++ utf8 "개 제거 권장" ++ nl
     | [] => []
     end
  ++ (if (0 <? recommended_removals exts)%Z then
        utf8 "- 총 " ++ str_of_int (recommended_removals exts)
        ++ utf8 "개 정도의 확장 프로그램 제거를 고려해보세요." ++ nl
      else utf8 "- 현재 설치된 확장 프로그램이 적절하게 관리되고 있습니다." ++ nl)
  ++ nl ++ utf8 "현재 총 " ++ str_of_int (len exts) ++ utf8 "개 중 "
  ++ str_of_int (kept exts) ++ utf8 "개 유지 권장" ++ nl.

(** The text written to [analysis_path]. *)
Definition analysis (exts : list ext) : str :=
  nl ++ nl ++ rule ++ utf8 "불필요한 확장 프로그램 분석" ++ nl ++ rule
  ++ finding_disabled exts ++ finding_duplicates exts ++ finding_themes exts
  ++ finding_languages exts ++ finding_format exts ++ finding_git exts
  ++ finding_debug exts ++ summary exts.

End Classifier.

(** ** Running the script (lines 15-227) *)

Definition extensions_json_path : str :=
  utf8 "C:\Users\dalko\.cursor\extensions\extensions.json".
Definition output_path : str := utf8 "f:\mobinogi\calc-runes\cursor-extensions-list.txt".
Definition analysis_path : str := utf8 "f:\mobinogi\calc-runes\extension-analysis.txt".
Definition error_path : str := utf8 "f:\mobinogi\calc-runes\extension-error.txt".

(** An exception with the text [str(e)] gives. [EnvironmentError] stands for
    whatever [open], [json.load], [os.path.getsize], a write or a [print]
    raises. *)
Inductive exn : Type :=
| FileNotFoundError (msg : str)
| AttributeError (msg : str)
| EnvironmentError (msg : str).

Definition exn_str (e : exn) : str :=
  match e with
  | FileNotFoundError msg => msg
  | AttributeError msg => msg
  | EnvironmentError msg => msg
  end.

(** What the script asks of its surroundings. *)
Record world : Type := {
  path_exists : str -> bool;          (* os.path.exists(path) *)
  json_load : str -> exn + json;      (* open(path, "r") and json.load(f) *)
  getsize : str -> exn + Z;           (* os.path.getsize(path) *)
  clock : str;                        (* datetime.now().strftime(...) *)
  write_error : str -> option exn;    (* what open(path, "w") or f.write raises, if anything *)
  stdout_error : str -> option exn;   (* what print raises on a text built from the input, if anything *)
  format_exc : exn -> str             (* traceback.format_exc() in the handler *)
}.

(** What a run does to its surroundings, in order. *)
Inductive event : Type :=
| Stdout (s : str)
| StdoutFailed (s : str)
| PathExists (path : str)
| JsonLoad (path : str)
| GetSize (path : str)
| ReadClock
| FileWrite (path : str) (content : str)
| FileWriteFailed (path : str) (content : str).

(** The result of a step: a value, an exception on its way to the handler, or
    an input whose fields are outside the schema. *)
Inductive res (A : Type) : Type :=
| Ok (a : A)
| Raise (e : exn)
| OutOfSchema.
Arguments Ok {A} a.
Arguments Raise {A} e.
Arguments OutOfSchema {A}.

(** A step of the script: it extends the trace of events and yields a [res]. *)
Definition prog (A : Type) : Type := list event -> res A * list event.

Definition ret {A : Type} (a : A) : prog A := fun t => (Ok a, t).

Definition bind {A B : Type} (m : prog A) (k : A -> prog B) : prog B :=
  fun t =>
    match m t with
    | (Ok a, t') => k a t'
    | (Raise e, t') => (Raise e, t')
    | (OutOfSchema, t') => (OutOfSchema, t')
    end.

Notation "x <- m ;; k" := (bind m (fun x => k))
  (at level 61, m at next level, right associativity).
Notation "m ;;; k" := (bind m (fun _ => k))
  (at level 61, right associativity).

Definition raise {A : Type} (e : exn) : prog A := fun t => (Raise e, t).

(** An action of the surroundings: it is recorded, then returns or raises. *)
Definition ask {A : Type} (ev : event) (r : exn + A) : prog A :=
  fun t =>
    (match r with
     | inl e => Raise e
     | inr a => Ok a
     end, t ++ [ev]).

(** [print(s)] for one of the script's own texts: a fixed message, with a
    number or one of the fixed paths put in. Standard output is taken to show
    these; a console that cannot fails at line 16, before anything else
    happens. *)
Definition print (s : str) : prog unit := ask (Stdout s) (inr tt).

(** [print(s)] for a text built from the input (line 210): it holds names, ids,
    publishers and versions as the file has them, and raises when standard
    output cannot take one of their characters. *)
Definition print_text (w : world) (s : str) : prog unit :=
  match stdout_error w s with
  | None => ask (Stdout s) (inr tt)
  | Some e => ask (StdoutFailed s) (inl e)
  end.

(** [with open(path, "w", encoding="utf-8") as f: f.write(content)]. *)
Definition write_file (w : world) (path content : str) : prog unit :=
  match write_error w path with
  | None => ask (FileWrite path content) (inr tt)
  | Some e => ask (FileWriteFailed path content) (inl e)
  end.

Definition type_name (v : json) : str :=
  match v with
  | JNull => utf8 "NoneType"
  | JBool _ => utf8 "bool"
  | JInt _ => utf8 "int"
  | JFloat _ => utf8 "float"
  | JStr _ => utf8 "str"
  | JList _ => utf8 "list"
  | JDict _ => utf8 "dict"
  end.

(** [data.items()]. *)
Definition items (data : json) : prog (list (str * json)) :=
  match data with
  | JDict d => ret d
  | _ => raise (AttributeError
                  (utf8 "'" ++ type_name data ++ utf8 "' object has no attribute 'items'"))
  end.

Definition in_schema {A : Type} (o : option A) : prog A :=
  fun t =>
    (match o with
     | Some a => Ok a
     | None => OutOfSchema
     end, t).

Section Script.

Variable lower : str -> str.

(** The body of the [try] (lines 16-211). *)
Definition body (w : world) : prog unit :=
  print (utf8 "확장 프로그램 파일 읽는 중...") ;;;
  print (utf8 "파일 경로: " ++ extensions_json_path) ;;;
  present <- ask (PathExists extensions_json_path) (inr (path_exists w extensions_json_path)) ;;
  (if negb present
   then raise (FileNotFoundError (utf8 "파일을 찾을 수 없습니다: " ++ extensions_json_path))
   else ret tt) ;;;
  data <- ask (JsonLoad extensions_json_path) (json_load w extensions_json_path) ;;
  size <- ask (GetSize extensions_json_path) (getsize w extensions_json_path) ;;
  print (utf8 "파일 크기: " ++ str_of_int size ++ utf8 " bytes") ;;;
  print (utf8 "JSON 파싱 성공") ;;;
  pairs <- items data ;;
  exts <- in_schema (extensions pairs) ;;
  print (nl ++ utf8 "총 확장 프로그램 수: " ++ str_of_int (len exts)) ;;;
  now <- ask ReadClock (inr (clock w)) ;;
  write_file w output_path (output lower now exts) ;;;
  print (nl ++ utf8 "목록이 다음 파일에 저장되었습니다:" ++ nl ++ output_path) ;;;
  print (utf8 "파일 크기: " ++ str_of_int (len (output lower now exts)) ++ utf8 " bytes") ;;;
  write_file w analysis_path (analysis lower exts) ;;;
  print_text w (analysis lower exts) ;;;
  print (nl ++ utf8 "분석 결과가 다음 파일에 저장되었습니다:" ++ nl ++ analysis_path).

(** Line 214 and 217: the text the handler prints and saves. *)
Definition error_msg (w : world) (e : exn) : str :=
  utf8 "오류 발생: " ++ exn_str e ++ nl ++ format_exc w e.

(** How a run ends: everything it did, and the exit code of the process. *)
Record outcome : Type := {
  trace : list event;
  exit_code : Z
}.

(** The [except Exception] branch (lines 213-227). The text it prints is the
    script's own message, the text of the exception and the traceback of the
    interpreter. The inner [try] writes the error file; its bare
    [except: pass] drops whatever that write raises. *)
Definition handler (w : world) (e : exn) (t : list event) : outcome :=
  let t := t ++ [Stdout (error_msg w e)] in
  let t := match write_error w error_path with
           | None => t ++ [FileWrite error_path (error_msg w e)]
           | Some _ => t ++ [FileWriteFailed error_path (error_msg w e)]
           end in
  {| trace := t; exit_code := 1 |}.

(** The whole script. [None]: the input is outside the schema. *)
Definition main (w : world) : option outcome :=
  match body w [] with
  | (Ok _, t) => Some {| trace := t; exit_code := 0 |}
  | (Raise e, t) => Some (handler w e t)
  | (OutOfSchema, _) => None
  end.

End Script.

(** * Vocabulary of the properties *)

(** [p] occurs in [s] as a contiguous run of characters. *)
Definition occurs (p s : str) : Prop := exists a b, s = a ++ p ++ b.

(** Lexicographic order on strings by code point: the empty string is least,
    the first differing character decides, equal heads defer to the tails. *)
Inductive str_le : str -> str -> Prop :=
| str_le_nil : forall t, str_le [] t
| str_le_lt : forall a b s t, (a < b)%N -> str_le (a :: s) (b :: t)
| str_le_eq : forall a s t, str_le s t -> str_le (a :: s) (a :: t).

(** Records compared by name. *)
Definition name_le (x y : ext) : Prop := str_le (name x) (name y).

(** The records of [l] named [n], in the order [l] has them. *)
Definition named (n : str) (l : list ext) : list ext :=
  filter (fun e => str_eqb (name e) n) l.

(** An entry of the input mapping whose value is a structured object. *)
Definition is_object_entry (kv : str * json) : bool := is_dict (snd kv).

(** The field [k] of an object is absent or holds a string. *)
Definition text_or_absent (d : dict json) (k : String.string) : bool :=
  match dict_lookup (utf8 k) d with
  | None => true
  | Some (JStr _) => true
  | Some _ => false
  end.

(** A well-formed input mapping: in every object, [name], [publisher] and
    [version] are strings when present. *)
Definition well_formed_entry (kv : str * json) : bool :=
  match snd kv with
  | JDict d =>
      text_or_absent d "name" && text_or_absent d "publisher" && text_or_absent d "version"
  | _ => true
  end.

Definition well_formed (items : list (str * json)) : bool :=
  forallb well_formed_entry items.

(** The value of field [k] of an object, or [default] when the object has no
    such field. *)
Definition field_or (d : dict json) (k : String.string) (default : json) : json :=
  match dict_lookup (utf8 k) d with
  | Some v => v
  | None => default
  end.

(** [e] is the record of the entry [kv]: the key as id, and each field taken
    from the object or defaulted. *)
Definition record_of (kv : str * json) (e : ext) : Prop :=
  exists d,
    snd kv = JDict d
    /\ id e = fst kv
    /\ JStr (name e) = field_or d "name" (JStr (utf8 "N/A"))
    /\ JStr (publisher e) = field_or d "publisher" (JStr (utf8 "N/A"))
    /\ JStr (version e) = field_or d "version" (JStr (utf8 "N/A"))
    /\ enabled e = field_or d "enabled" (JBool true).

(** The rows of the table, one text per row. *)
Definition table_rows (exts : list ext) : list str :=
  map table_row (enumerate 1 exts).

Definition sum_Z (l : list Z) : Z := fold_right Z.add 0%Z l.

(** [lower] does to ASCII text what [str.lower] does to it. *)
Definition lower_on_ascii (lower : str -> str) : Prop :=
  forall s, is_ascii s = true -> lower s = ascii_lower s.

(** Every id and name of [exts] is ASCII text. *)
Definition ascii_records (exts : list ext) : bool :=
  forallb (fun e => is_ascii (id e) && is_ascii (name e)) exts.

(** Two records are members of one group of [groups]. *)
Definition same_group (groups : list (list ext)) (x y : ext) : Prop :=
  exists g, In g groups /\ In x g /\ In y g.

(** Appending [e] to the group filed under [k], or opening a group for [k]
    after the others. *)
Fixpoint join_group (k : str) (e : ext) (groups : dict (list ext)) : dict (list ext) :=
  match groups with
  | [] => [(k, [e])]
  | (k', g) :: rest =>
      if str_eqb k' k then (k', g ++ [e]) :: rest else (k', g) :: join_group k e rest
  end.

(** [groups] files the records of [l] by [key]: no key twice, each group the
    records of [l] with its key in the order of [l] and not empty, every record
    filed, and nothing added or lost. *)
Definition grouped (key : ext -> str) (groups : dict (list ext)) (l : list ext) : Prop :=
  NoDup (map fst groups)
  /\ (forall k g, In (k, g) groups ->
                  g = filter (fun e => str_eqb (key e) k) l /\ g <> [])
  /\ (forall e, In e l -> exists g, In (key e, g) groups)
  /\ Permutation (concat (dict_values groups)) l.

(** The contents written to [path] in the course of a trace, in order. *)
Definition written (path : str) (t : list event) : list str :=
  flat_map (fun ev =>
              match ev with
              | FileWrite p c => if str_eqb p path then [c] else []
              | _ => []
              end) t.

(** ** Sample inputs *)

Definition text (s : String.string) : json := JStr (utf8 s).

(** The scenario of two records named alike, the first one disabled. *)
Definition alpha_items : list (str * json) :=
  [ (utf8 "pub.ext1",
     JDict [(utf8 "name", text "Alpha Theme"); (utf8 "publisher", text "pub");
            (utf8 "version", text "1.0"); (utf8 "enabled", JBool false)]);
    (utf8 "pub.ext2",
     JDict [(utf8 "name", text "Alpha Theme"); (utf8 "publisher", text "pub2");
            (utf8 "version", text "2.0"); (utf8 "enabled", JBool true)]) ].

Definition alpha1 : ext :=
  mk_ext (utf8 "pub.ext1") (utf8 "Alpha Theme") (utf8 "pub") (utf8 "1.0") (JBool false).
Definition alpha2 : ext :=
  mk_ext (utf8 "pub.ext2") (utf8 "Alpha Theme") (utf8 "pub2") (utf8 "2.0") (JBool true).

(** A mapping with a value that is no object, an object without fields, and
    names out of order. *)
Definition mixed_items : list (str * json) :=
  [ (utf8 "zeta.tool", JDict [(utf8 "name", text "Zeta")]);
    (utf8 "telemetry", JInt 7);
    (utf8 "acme.git-theme", JDict []);
    (utf8 "beta.one", JDict [(utf8 "name", text "Beta"); (utf8 "enabled", JBool false)]);
    (utf8 "beta.two", JDict [(utf8 "name", text "Beta"); (utf8 "version", text "2")]) ].

(** The records of [mixed_items], sorted by name. *)
Definition mixed_exts : list ext :=
  [ mk_ext (utf8 "beta.one") (utf8 "Beta") (utf8 "N/A") (utf8 "N/A") (JBool false);
    mk_ext (utf8 "beta.two") (utf8 "Beta") (utf8 "N/A") (utf8 "2") (JBool true);
    mk_ext (utf8 "acme.git-theme") (utf8 "N/A") (utf8 "N/A") (utf8 "N/A") (JBool true);
    mk_ext (utf8 "zeta.tool") (utf8 "Zeta") (utf8 "N/A") (utf8 "N/A") (JBool true) ].

(** One record whose id names two categories. *)
Definition overlap_items : list (str * json) :=
  [ (utf8 "acme.git-theme", JDict []) ].

Definition overlap_ext : ext :=
  mk_ext (utf8 "acme.git-theme") (utf8 "N/A") (utf8 "N/A") (utf8 "N/A") (JBool true).

(** Three records: two whose names differ only in case and spacing, and one
    on its own. *)
Definition foo_bar : ext :=
  mk_ext (utf8 "a.one") (utf8 "Foo Bar") (utf8 "a") (utf8 "1") (JBool true).
Definition foobar : ext :=
  mk_ext (utf8 "b.two") (utf8 "foobar") (utf8 "b") (utf8 "1") (JBool true).
Definition baz : ext :=
  mk_ext (utf8 "c.three") (utf8 "Baz") (utf8 "c") (utf8 "1") (JBool true).

(** An id of exactly 50 characters that ends in three dots, and a name of
    exactly 35 characters that does. *)
Definition dotted_id : str := repeat 97%N 47 ++ utf8 "...".
Definition dotted_name : str := repeat 97%N 32 ++ utf8 "...".
Definition dotted_ext : ext :=
  mk_ext dotted_id dotted_name (utf8 "N/A") (utf8 "N/A") (JBool true).

(** A world in which the input file holds [data] and every write succeeds. *)
Definition world_with (data : json) (now : str) : world :=
  {| path_exists := fun _ => true;
     json_load := fun _ => inr data;
     getsize := fun _ => inr 2%Z;
     clock := now;
     write_error := fun _ => None;
     stdout_error := fun _ => None;
     format_exc := fun _ => utf8 "Traceback (most recent call last):" |}.

(** Two readings of the clock. *)
Definition stamp1 : str := utf8 "2025-01-27 09:00:00".
Definition stamp2 : str := utf8 "2025-01-27 09:00:01".

(** A world without the input file. *)
Definition world_without : world :=
  {| path_exists := fun _ => false;
     json_load := fun _ => inl (EnvironmentError (utf8 "No such file or directory"));
     getsize := fun _ => inl (EnvironmentError (utf8 "No such file or directory"));
     clock := utf8 "2025-01-27 09:00:00";
     write_error := fun _ => None;
     stdout_error := fun _ => None;
     format_exc := fun _ => utf8 "Traceback (most recent call last):" |}.

(** The same, on a disk that refuses every write. *)
Definition world_without_readonly : world :=
  {| path_exists := fun _ => false;
     json_load := fun _ => inl (EnvironmentError (utf8 "No such file or directory"));
     getsize := fun _ => inl (EnvironmentError (utf8 "No such file or directory"));
     clock := utf8 "2025-01-27 09:00:00";
     write_error := fun _ => Some (EnvironmentError (utf8 "Permission denied"));
     stdout_error := fun _ => None;
     format_exc := fun _ => utf8 "Traceback (most recent call last):" |}.


(** ** Lines of a document *)

(** [s.split("\n")]: the lines of a text, the last one being what follows the
    last line feed. *)
Fixpoint lines (s : str) : list str :=
  match s with
  | [] => [[]]
  | c :: rest =>
      if (c =? 10)%N then [] :: lines rest
      else match lines rest with
           | l :: ls => (c :: l) :: ls
           | [] => [[c]]
           end
  end.

(** The text holds no line feed. *)
Definition no_line_feed (s : str) : bool := forallb (fun c => negb (c =? 10)%N) s.

(** A byte that stands for itself in UTF-8 and is no line feed. *)
Definition plain_byte (b : N) : bool := (b <? 128)%N && negb (b =? 10)%N.

(** None of the four texts of the record holds a line feed. *)
Definition plain_record (e : ext) : bool :=
  no_line_feed (id e) && no_line_feed (name e)
  && no_line_feed (publisher e) && no_line_feed (version e).

(** The lines of [ls] before its first empty line. *)
Fixpoint leading_nonblank (ls : list str) : list str :=
  match ls with
  | [] => []
  | [] :: _ => []
  | l :: rest => l :: leading_nonblank rest
  end.

(** The table of a listing as a reader finds it: the lines after the seven
    lines of the head (title, date, total, blank, rule, column titles, rule),
    up to the blank line that follows the last row. *)
Definition table_lines (doc : str) : list str :=
  leading_nonblank (skipn 7 (lines doc)).

(** The six cells of the row of a record, as line 58 lays them out, without
    the line end. *)
Definition row_cells (row : Z * ext) : str :=
  let (idx, e) := row in
  ljust 6 (str_of_int idx) ++ [space] ++ ljust 50 (ext_id e) ++ [space]
  ++ ljust 35 (ext_name e) ++ [space] ++ ljust 20 (publisher e) ++ [space]
  ++ ljust 15 (version e) ++ [space] ++ ljust 10 (status e).

(** The seven lines of the head of a listing. *)
Definition head_lines (now : str) (exts : list ext) : list str :=
  [ utf8 "Cursor 확장 프로그램 목록";
    utf8 "생성일: " ++ now;
    utf8 "총 확장 프로그램 수: " ++ str_of_int (len exts);
    [];
    times "=" 100;
    ljust 6 (utf8 "번호") ++ [space] ++ ljust 50 (utf8 "ID") ++ [space]
    ++ ljust 35 (utf8 "이름") ++ [space] ++ ljust 20 (utf8 "게시자") ++ [space]
    ++ ljust 15 (utf8 "버전") ++ [space] ++ ljust 10 (utf8 "상태");
    times "=" 100 ].

(** A well-formed mapping of one object whose name holds a line feed, and its
    record. *)
Definition two_line_items : list (str * json) :=
  [ (utf8 "acme.notes",
     JDict [(utf8 "name", JStr (utf8 "Release" ++ nl ++ utf8 "Notes"))]) ].
Definition two_line_ext : ext :=
  mk_ext (utf8 "acme.notes") (utf8 "Release" ++ nl ++ utf8 "Notes")
         (utf8 "N/A") (utf8 "N/A") (JBool true).

(** ** Vocabulary of the further properties *)

(** The keys of [ks] in the order of their first occurrence. *)
Fixpoint first_occurrences (ks : list str) : list str :=
  match ks with
  | [] => []
  | k :: rest => k :: filter (fun k' => negb (str_eqb k' k)) (first_occurrences rest)
  end.

(** [k] is one of [ks]. *)
Definition key_in (ks : list str) (k : str) : bool := existsb (str_eqb k) ks.

(** A world in which the input file cannot be read as JSON. *)
Definition world_unreadable : world :=
  {| path_exists := fun _ => true;
     json_load := fun _ => inl (EnvironmentError
                                  (utf8 "Expecting value: line 1 column 1 (char 0)"));
     getsize := fun _ => inr 0%Z;
     clock := stamp1;
     write_error := fun _ => None;
     stdout_error := fun _ => None;
     format_exc := fun _ => utf8 "Traceback (most recent call last):" |}.

(** A world in which the input file holds [data] and writes to [bad] fail. *)
Definition world_failing (data : json) (now bad : str) : world :=
  {| path_exists := fun _ => true;
     json_load := fun _ => inr data;
     getsize := fun _ => inr 2%Z;
     clock := now;
     write_error := fun p => if str_eqb p bad
                             then Some (EnvironmentError (utf8 "Permission denied"))
                             else None;
     stdout_error := fun _ => None;
     format_exc := fun _ => utf8 "Traceback (most recent call last):" |}.

(** The same records under two orders of the mapping. *)
Definition zeta_first : list ext :=
  [ mk_ext (utf8 "zeta.tool") (utf8 "Zeta") (utf8 "N/A") (utf8 "N/A") (JBool true);
    mk_ext (utf8 "beta.one") (utf8 "Beta") (utf8 "N/A") (utf8 "N/A") (JBool false) ].
Definition beta_first : list ext :=
  [ mk_ext (utf8 "beta.one") (utf8 "Beta") (utf8 "N/A") (utf8 "N/A") (JBool false);
    mk_ext (utf8 "zeta.tool") (utf8 "Zeta") (utf8 "N/A") (utf8 "N/A") (JBool true) ].

(** One object with a name and the flag set to false, and its record. *)
Definition beta_object : dict json :=
  [(utf8 "name", text "Beta"); (utf8 "enabled", JBool false)].
Definition beta_record : ext :=
  mk_ext (utf8 "beta.one") (utf8 "Beta") (utf8 "N/A") (utf8 "N/A") (JBool false).

(** A mapping in which no value is an object. *)
Definition plain_items : list (str * json) :=
  [ (utf8 "telemetry", JInt 7); (utf8 "lastSync", text "2025-01-27") ].

Definition denied : exn := EnvironmentError (utf8 "Permission denied").

(** In how many of the five categories a record is. *)
Definition category_count (lower : str -> str) (e : ext) : Z :=
  (Z.b2z (is_language lower e) + Z.b2z (is_theme lower e) + Z.b2z (is_git lower e)
   + Z.b2z (is_debug lower e) + Z.b2z (is_format lower e))%Z.

(** What [print] raises on a character the console cannot show. *)
Definition unencodable : exn :=
  EnvironmentError (utf8 "'cp949' codec can't encode character in position 57").

(** A world in which the input file holds [data], every write succeeds, and
    standard output cannot take the analysis. *)
Definition world_mute (data : json) (now : str) : world :=
  {| path_exists := fun _ => true;
     json_load := fun _ => inr data;
     getsize := fun _ => inr 2%Z;
     clock := now;
     write_error := fun _ => None;
     stdout_error := fun _ => Some unencodable;
     format_exc := fun _ => utf8 "Traceback (most recent call last):" |}.
(** * Properties *)

(** ** Strings *)

Lemma str_eqb_eq (s t : str) : str_eqb s t = true <-> s = t.
Proof.
  revert t; induction s as [|a s IH]; intros [|b t]; simpl; split; intro H;
    try reflexivity; try discriminate.
  - apply andb_true_iff in H as [Hab Hst].
    apply N.eqb_eq in Hab. apply IH in Hst. now subst.
  - injection H as -> ->. rewrite N.eqb_refl. now apply IH.
Qed.

Lemma str_eqb_refl (s : str) : str_eqb s s = true.
Proof. now apply str_eqb_eq. Qed.

Lemma str_eqb_neq (s t : str) : str_eqb s t = false <-> s <> t.
Proof.
  split.
  - intros H E. apply str_eqb_eq in E. congruence.
  - intro H. destruct (str_eqb s t) eqn:E; [|reflexivity].
    apply str_eqb_eq in E. contradiction.
Qed.

Lemma starts_with_prefix (p s : str) :
  starts_with p s = true <-> exists b, s = p ++ b.
Proof.
  revert s; induction p as [|a p IH]; intros s; simpl.
  - split; [intros _; now exists s | reflexivity].
  - destruct s as [|c s].
    + split; [discriminate | intros [b Hb]; discriminate].
    + rewrite andb_true_iff, N.eqb_eq, IH. split.
      * intros [-> [b ->]]. now exists b.
      * intros [b Hb]. injection Hb as -> ->. split; [reflexivity | now exists b].
Qed.

Lemma contains_occurs (p s : str) : contains p s = true <-> occurs p s.
Proof.
  unfold occurs. induction s as [|c s IH].
  - simpl. rewrite orb_false_r, starts_with_prefix. split.
    + intros [b Hb]. now exists [], b.
    + intros [a [b Hab]]. destruct a; [now exists b | discriminate].
  - cbn [contains]. rewrite orb_true_iff, starts_with_prefix, IH. split.
    + intros [[b Hb] | [a [b Hab]]].
      * now exists [], b.
      * exists (c :: a), b. simpl. now f_equal.
    + intros [a [b Hab]]. destruct a as [|c' a].
      * left. now exists b.
      * right. injection Hab as -> ->. now exists a, b.
Qed.

Lemma ends_with_suffix (p s : str) :
  ends_with p s = true <-> exists a, s = a ++ p.
Proof.
  unfold ends_with. rewrite starts_with_prefix. split.
  - intros [b Hb]. exists (rev b).
    rewrite <- (rev_involutive s), Hb, rev_app_distr, rev_involutive. reflexivity.
  - intros [a ->]. exists (rev a). apply rev_app_distr.
Qed.

(** [str_ltb] decides the strict side of the lexicographic order. *)
Lemma str_ltb_le (s t : str) : str_ltb t s = false <-> str_le s t.
Proof.
  revert t; induction s as [|a s IH]; intros t.
  - destruct t; simpl; split; auto using str_le_nil.
  - destruct t as [|b t]; simpl.
    + split; [discriminate | intro H; inversion H].
    + destruct (N.ltb_spec b a) as [Hba | Hba].
      * split; [discriminate | intro H; inversion H; subst; lia].
      * destruct (N.ltb_spec a b) as [Hab | Hab].
        -- split; [intros _; now apply str_le_lt | reflexivity].
        -- assert (a = b) by lia. subst b. rewrite IH. split.
           ++ now apply str_le_eq.
           ++ intro H; inversion H; subst; [lia | assumption].
Qed.

Lemma str_le_refl (s : str) : str_le s s.
Proof. induction s; auto using str_le_nil, str_le_eq. Qed.

Lemma str_le_trans (s t u : str) : str_le s t -> str_le t u -> str_le s u.
Proof.
  intro H; revert u; induction H; intros u Hu.
  - apply str_le_nil.
  - inversion Hu; subst; apply str_le_lt; lia.
  - inversion Hu; subst; [now apply str_le_lt | apply str_le_eq; auto].
Qed.

Lemma str_le_antisym (s t : str) : str_le s t -> str_le t s -> s = t.
Proof.
  induction 1; intro H'; inversion H'; subst; try reflexivity; try lia.
  f_equal; auto.
Qed.

Lemma str_le_total (s t : str) : str_le s t \/ str_le t s.
Proof.
  destruct (str_ltb t s) eqn:E.
  - right. apply str_ltb_le. revert t E; induction s as [|a s IH]; intros [|b t] E;
      simpl in *; try discriminate; try reflexivity.
    destruct (N.ltb_spec b a), (N.ltb_spec a b); try reflexivity; try lia; try discriminate.
    now apply IH.
  - left. now apply str_ltb_le.
Qed.

Lemma str_ltb_irrefl (s : str) : str_ltb s s = false.
Proof. apply str_ltb_le, str_le_refl. Qed.

(** ** Building the records *)

Lemma append_each_concat {A : Type} (f : A -> str) (l : list A) (out : str) :
  append_each f l out = out ++ concat (map f l).
Proof.
  unfold append_each. revert out; induction l as [|x l IH]; intro out; simpl.
  - now rewrite app_nil_r.
  - now rewrite IH, app_assoc.
Qed.

Lemma enumerate_length {A : Type} (start : Z) (l : list A) :
  length (enumerate start l) = length l.
Proof. revert start; induction l; intro; simpl; auto. Qed.

Lemma get_text_field (d : dict json) (k : String.string) (s : str) :
  get_text d k = Some s -> JStr s = field_or d k (JStr (utf8 "N/A")).
Proof.
  unfold get_text, dict_get, field_or, NA.
  destruct (dict_lookup (utf8 k) d) as [[]|]; intro H; inversion H; reflexivity.
Qed.

Lemma get_text_defined (d : dict json) (k : String.string) :
  text_or_absent d k = true <-> exists s, get_text d k = Some s.
Proof.
  unfold get_text, dict_get, text_or_absent, NA.
  destruct (dict_lookup (utf8 k) d) as [[]|]; split; intro H;
    try discriminate; try reflexivity; try (destruct H; discriminate); eauto.
Qed.

Lemma make_ext_record (key : str) (d : dict json) (e : ext) :
  make_ext key d = Some e -> record_of (key, JDict d) e.
Proof.
  unfold make_ext.
  destruct (get_text d "name") eqn:Hn; [|discriminate].
  destruct (get_text d "publisher") eqn:Hp; [|discriminate].
  destruct (get_text d "version") eqn:Hv; [|discriminate].
  intro H; inversion H; subst e. exists d. simpl.
  repeat split; auto using get_text_field.
Qed.

Lemma make_ext_defined (key : str) (d : dict json) :
  well_formed_entry (key, JDict d) = true <-> exists e, make_ext key d = Some e.
Proof.
  unfold well_formed_entry, make_ext; simpl.
  rewrite !andb_true_iff, !get_text_defined. split.
  - intros [[[n ->] [p ->]] [v ->]]. eexists; reflexivity.
  - intros [e He].
    destruct (get_text d "name"); [|discriminate].
    destruct (get_text d "publisher"); [|discriminate].
    destruct (get_text d "version"); [|discriminate].
    repeat split; eexists; reflexivity.
Qed.

(** The loop adds to [acc] the records of the object entries, in order. *)
Lemma build_from_spec (items : list (str * json)) (acc built : list ext) :
  build_from acc items = Some built ->
  exists recs, built = acc ++ recs
               /\ Forall2 record_of (filter is_object_entry items) recs.
Proof.
  revert acc; induction items as [|[key value] rest IH]; intros acc H; simpl in H.
  - inversion H; subst. exists []. rewrite app_nil_r. split; [reflexivity | constructor].
  - unfold is_object_entry at 1; simpl.
    destruct value; simpl; try (now apply IH).
    destruct (make_ext key d) as [e|] eqn:He; [|discriminate].
    apply IH in H as [recs [-> HF]]. exists (e :: recs). split.
    + now rewrite <- app_assoc.
    + constructor; [now apply make_ext_record | assumption].
Qed.

Lemma build_spec (items : list (str * json)) (built : list ext) :
  build items = Some built ->
  Forall2 record_of (filter is_object_entry items) built.
Proof.
  intro H. apply build_from_spec in H as [recs [-> HF]]. exact HF.
Qed.

(** The loop runs to its end exactly on the well-formed mappings. *)
Lemma build_from_defined (items : list (str * json)) (acc : list ext) :
  well_formed items = true <-> exists built, build_from acc items = Some built.
Proof.
  revert acc; induction items as [|[key value] rest IH]; intro acc; simpl.
  - split; eauto.
  - rewrite andb_true_iff.
    destruct value; try (unfold well_formed_entry; simpl; rewrite (IH acc); tauto).
    rewrite make_ext_defined. split.
    + intros [[e He] Hrest]. rewrite He. now apply IH.
    + intros [built Hb]. destruct (make_ext key d) as [e|]; [|discriminate].
      split; [eauto | apply (IH (acc ++ [e])); eauto].
Qed.

Lemma extensions_defined (items : list (str * json)) :
  well_formed items = true <-> exists exts, extensions items = Some exts.
Proof.
  unfold extensions, build. rewrite (build_from_defined items []). split.
  - intros [built ->]. simpl. eauto.
  - intros [exts H]. destruct (build_from [] items); [eauto | discriminate].
Qed.

(** ** Sorting *)

Lemma insert_by_name_perm (x : ext) (l : list ext) :
  Permutation (x :: l) (insert_by_name x l).
Proof.
  induction l as [|y l IH]; simpl; [reflexivity|].
  destruct (str_ltb (name y) (name x)); [|reflexivity].
  rewrite perm_swap. now constructor.
Qed.

Lemma sort_by_name_perm (l : list ext) : Permutation l (sort_by_name l).
Proof.
  induction l as [|x l IH]; simpl; [constructor|].
  rewrite <- insert_by_name_perm. now constructor.
Qed.

Lemma insert_by_name_sorted (x : ext) (l : list ext) :
  StronglySorted name_le l -> StronglySorted name_le (insert_by_name x l).
Proof.
  induction 1 as [|y l Hl IH Hy]; simpl.
  - repeat constructor.
  - destruct (str_ltb (name y) (name x)) eqn:E.
    + constructor; [assumption|].
      rewrite <- insert_by_name_perm. constructor; [|assumption].
      destruct (str_le_total (name y) (name x)) as [H|H]; [exact H|].
      apply str_ltb_le in H. congruence.
    + apply str_ltb_le in E. constructor; [now constructor|].
      constructor; [exact E|].
      eapply Forall_impl; [|exact Hy]. intros z Hz. unfold name_le in *.
      eauto using str_le_trans.
Qed.

Lemma sort_by_name_sorted (l : list ext) : StronglySorted name_le (sort_by_name l).
Proof.
  induction l; simpl; [constructor | now apply insert_by_name_sorted].
Qed.

(** Inserting a record leaves the records of every name in their order. *)
Lemma insert_by_name_named (n : str) (x : ext) (l : list ext) :
  named n (insert_by_name x l) = named n (x :: l).
Proof.
  unfold named. induction l as [|y l IH]; [reflexivity|].
  cbn [insert_by_name]. destruct (str_ltb (name y) (name x)) eqn:E; [|reflexivity].
  cbn [filter] in *. rewrite IH.
  destruct (str_eqb (name x) n) eqn:Ex, (str_eqb (name y) n) eqn:Ey; try reflexivity.
  apply str_eqb_eq in Ex, Ey. rewrite Ex, Ey, str_ltb_irrefl in E. discriminate.
Qed.

Lemma sort_by_name_stable (n : str) (l : list ext) :
  named n (sort_by_name l) = named n l.
Proof.
  induction l as [|x l IH]; [reflexivity|].
  simpl sort_by_name. rewrite insert_by_name_named.
  unfold named in *. simpl. now rewrite IH.
Qed.

(** A list sorted by name is fixed by the records it holds under each name:
    whatever stable sort the interpreter runs, it returns [sort_by_name l]. *)
Lemma stable_sort_unique (l1 l2 : list ext) :
  StronglySorted name_le l1 -> StronglySorted name_le l2 ->
  (forall n, named n l1 = named n l2) -> l1 = l2.
Proof.
  intro H1; revert l2; induction H1 as [|x l1 Hs1 IH Hx]; intros l2 H2 Hn.
  - destruct l2 as [|y l2]; [reflexivity|].
    specialize (Hn (name y)). unfold named in Hn; simpl in Hn.
    rewrite str_eqb_refl in Hn. discriminate.
  - destruct H2 as [|y l2 Hs2 Hy].
    + specialize (Hn (name x)). unfold named in Hn; simpl in Hn.
      rewrite str_eqb_refl in Hn. discriminate.
    + assert (Hxy : name x = name y).
      { apply str_le_antisym.
        - assert (In y (named (name y) (x :: l1))) as Hin.
          { rewrite Hn. unfold named; simpl. rewrite str_eqb_refl. now left. }
          apply filter_In in Hin as [[->|Hin] _]; [apply str_le_refl|].
          rewrite Forall_forall in Hx. now apply Hx.
        - assert (In x (named (name x) (y :: l2))) as Hin.
          { rewrite <- Hn. unfold named; simpl. rewrite str_eqb_refl. now left. }
          apply filter_In in Hin as [[->|Hin] _]; [apply str_le_refl|].
          rewrite Forall_forall in Hy. now apply Hy. }
      assert (x = y) as ->.
      { specialize (Hn (name x)). unfold named in Hn; simpl in Hn.
        rewrite <- Hxy, str_eqb_refl in Hn. now inversion Hn. }
      f_equal. apply IH; [assumption|]. intro n.
      specialize (Hn n). unfold named in *; simpl in Hn.
      destruct (str_eqb (name y) n); [now inversion Hn | assumption].
Qed.

(** ** Grouping by name *)

Lemma join_group_cases (k : str) (e : ext) (groups : dict (list ext)) :
  (exists g1 g g2, groups = g1 ++ (k, g) :: g2 /\ ~ In k (map fst g1)
                   /\ join_group k e groups = g1 ++ (k, g ++ [e]) :: g2)
  \/ (~ In k (map fst groups) /\ join_group k e groups = groups ++ [(k, [e])]).
Proof.
  induction groups as [|[k' g'] r IH]; simpl.
  - right. split; auto.
  - destruct (str_eqb k' k) eqn:E.
    + apply str_eqb_eq in E; subst. left. exists [], g', r. simpl. auto.
    + apply str_eqb_neq in E.
      destruct IH as [(g1 & g & g2 & -> & Hn & ->) | [Hn ->]].
      * left. exists ((k', g') :: g1), g, g2. simpl.
        repeat split; auto. intros [H|H]; auto.
      * right. split; auto. intros [H|H]; auto.
Qed.

Lemma filter_none {A : Type} (p : A -> bool) (l : list A) :
  (forall x, In x l -> p x = false) -> filter p l = [].
Proof.
  induction l as [|x l IH]; intro H; simpl; [reflexivity|].
  rewrite (H x (or_introl eq_refl)). apply IH. intros y Hy. apply H. now right.
Qed.

Lemma filter_snoc_other (key : ext -> str) (k : str) (l : list ext) (e : ext) :
  key e <> k ->
  filter (fun x => str_eqb (key x) k) (l ++ [e]) = filter (fun x => str_eqb (key x) k) l.
Proof.
  intro H. rewrite filter_app. simpl.
  apply str_eqb_neq in H. rewrite H. apply app_nil_r.
Qed.

Lemma filter_snoc_same (key : ext -> str) (l : list ext) (e : ext) :
  filter (fun x => str_eqb (key x) (key e)) (l ++ [e])
  = filter (fun x => str_eqb (key x) (key e)) l ++ [e].
Proof. rewrite filter_app. simpl. now rewrite str_eqb_refl. Qed.

Lemma grouped_nil (key : ext -> str) : grouped key [] [].
Proof.
  repeat split; simpl; try constructor; intros; contradiction.
Qed.

Lemma grouped_join (key : ext -> str) (groups : dict (list ext)) (l : list ext) (e : ext) :
  grouped key groups l -> grouped key (join_group (key e) e groups) (l ++ [e]).
Proof.
  intros (Hnd & Hmem & Hcov & Hperm). unfold dict_values in *.
  destruct (join_group_cases (key e) e groups)
    as [(g1 & g & g2 & Hg & Hn1 & ->) | [Hn ->]].
  - subst groups. rewrite map_app in Hnd; simpl in Hnd.
    assert (Hn2 : ~ In (key e) (map fst g2)).
    { apply NoDup_remove_2 in Hnd. rewrite in_app_iff in Hnd. tauto. }
    assert (Hold : forall k' g', In (k', g') (g1 ++ g2) ->
                                 g' = filter (fun x => str_eqb (key x) k') (l ++ [e])
                                 /\ g' <> []).
    { intros k' g' Hin.
      assert (k' <> key e).
      { intros ->. apply in_app_iff in Hin as [Hin|Hin];
          [apply Hn1 | apply Hn2]; now apply (in_map fst) in Hin. }
      rewrite filter_snoc_other by congruence. apply Hmem.
      apply in_app_iff in Hin. apply in_app_iff. simpl. tauto. }
    split; [|split; [|split]].
    + now rewrite map_app.
    + intros k' g' H. apply in_app_iff in H as [H | [H | H]].
      * apply Hold. apply in_app_iff. tauto.
      * inversion H; subst. rewrite filter_snoc_same. split.
        -- f_equal. apply Hmem. apply in_app_iff. simpl. tauto.
        -- intro E. symmetry in E. now apply app_cons_not_nil in E.
      * apply Hold. apply in_app_iff. tauto.
    + intros e' He'. apply in_app_iff in He' as [He' | [<- | []]].
      * destruct (Hcov e' He') as [g0 Hg0].
        apply in_app_iff in Hg0 as [Hg0 | [Hg0 | Hg0]].
        -- exists g0. apply in_app_iff. tauto.
        -- inversion Hg0; subst. exists (g0 ++ [e]). apply in_app_iff.
           right; left. congruence.
        -- exists g0. apply in_app_iff. simpl. tauto.
      * exists (g ++ [e]). apply in_app_iff. simpl. tauto.
    + unfold dict_values. rewrite map_app, concat_app in *. simpl in *. rewrite <- Hperm.
      rewrite <- !app_assoc. apply Permutation_app_head, Permutation_app_head.
      apply Permutation_app_comm.
  - assert (Hempty : filter (fun x => str_eqb (key x) (key e)) l = []).
    { apply filter_none. intros x Hx. apply str_eqb_neq. intro Hk.
      destruct (Hcov x Hx) as [g0 Hg0]. apply Hn.
      apply (in_map fst) in Hg0. simpl in Hg0. congruence. }
    split; [|split; [|split]].
    + rewrite map_app. simpl. apply (Permutation_NoDup (Permutation_cons_append _ _)).
      now constructor.
    + intros k' g' H. apply in_app_iff in H as [H | [H | []]].
      * rewrite filter_snoc_other; [now apply Hmem|].
        intros <-. apply Hn. now apply (in_map fst) in H.
      * inversion H; subst. rewrite filter_snoc_same, Hempty. split; [reflexivity | discriminate].
    + intros e' He'. apply in_app_iff in He' as [He' | [<- | []]].
      * destruct (Hcov e' He') as [g0 Hg0]. exists g0. apply in_app_iff. tauto.
      * exists [e]. apply in_app_iff. simpl. tauto.
    + unfold dict_values. rewrite map_app, concat_app. simpl.
      now apply Permutation_app_tail.
Qed.

Section Grouping.

Variable lower : str -> str.

(** One turn of the loop files the record under its key. *)
Lemma add_to_groups_join (groups : dict (list ext)) (e : ext) :
  add_to_groups lower groups e = join_group (name_key lower e) e groups.
Proof.
  unfold add_to_groups. generalize (name_key lower e) as k. intro k.
  induction groups as [|[k' g] r IH].
  - unfold dict_mem, dict_get. simpl. now rewrite str_eqb_refl.
  - unfold dict_mem, dict_get in *. simpl.
    destruct (str_eqb k' k) eqn:E.
    + simpl. now rewrite E.
    + destruct (dict_lookup k r) eqn:L; simpl in *; rewrite ?E; simpl; rewrite ?E;
        f_equal; exact IH.
Qed.

Lemma name_groups_from (exts : list ext) (groups : dict (list ext)) (l : list ext) :
  grouped (name_key lower) groups l ->
  grouped (name_key lower) (fold_left (add_to_groups lower) exts groups) (l ++ exts).
Proof.
  revert groups l; induction exts as [|e exts IH]; intros groups l H; simpl.
  - now rewrite app_nil_r.
  - replace (l ++ e :: exts) with ((l ++ [e]) ++ exts) by now rewrite <- app_assoc.
    apply IH. rewrite add_to_groups_join. now apply grouped_join.
Qed.

Lemma name_groups_grouped (exts : list ext) :
  grouped (name_key lower) (name_groups lower exts) exts.
Proof. apply (name_groups_from exts [] []), grouped_nil. Qed.

End Grouping.

(** ** The listing *)

Lemma output_rows (lower : str -> str) (now : str) (exts : list ext) :
  output lower now exts
  = listing_head now exts ++ concat (table_rows exts) ++ listing_tail lower exts.
Proof.
  unfold output, table_rows. rewrite append_each_concat. now rewrite <- app_assoc.
Qed.

Lemma table_rows_each (exts : list ext) :
  Forall2 (fun e row => exists idx, row = table_row (idx, e)) exts (table_rows exts).
Proof.
  unfold table_rows. generalize 1%Z as start.
  induction exts as [|e exts IH]; intro start; simpl; constructor; eauto.
Qed.

(** ** The lines of the listing *)

Lemma lines_line (a b : str) :
  no_line_feed a = true -> lines (a ++ nl ++ b) = a :: lines b.
Proof.
  induction a as [|c a IH]; intro H; [reflexivity|].
  cbn [no_line_feed forallb] in H. apply andb_true_iff in H as [Hc Ha].
  apply negb_true_iff in Hc.
  change ((c :: a) ++ nl ++ b) with (c :: (a ++ nl ++ b)).
  cbn [lines]. rewrite Hc, (IH Ha). reflexivity.
Qed.

Lemma lines_of_lines (ls : list str) (rest : str) :
  forallb no_line_feed ls = true ->
  lines (concat (map (fun l => l ++ nl) ls) ++ rest) = ls ++ lines rest.
Proof.
  induction ls as [|l ls IH]; intro H; [reflexivity|].
  cbn [forallb] in H. apply andb_true_iff in H as [Hl Hls].
  cbn [map concat]. rewrite <- !app_assoc, (lines_line _ _ Hl), (IH Hls).
  reflexivity.
Qed.

Lemma no_line_feed_app (a b : str) :
  no_line_feed (a ++ b) = no_line_feed a && no_line_feed b.
Proof. apply forallb_app. Qed.

Lemma no_line_feed_spaces (n : nat) : no_line_feed (repeat space n) = true.
Proof. induction n; [reflexivity | exact IHn]. Qed.

Lemma no_line_feed_ljust (w : nat) (s : str) :
  no_line_feed s = true -> no_line_feed (ljust w s) = true.
Proof.
  intro H. unfold ljust. now rewrite no_line_feed_app, H, no_line_feed_spaces.
Qed.

Lemma no_line_feed_firstn (n : nat) (s : str) :
  no_line_feed s = true -> no_line_feed (firstn n s) = true.
Proof.
  revert n; induction s as [|c s IH]; intros [|n] H; try reflexivity.
  cbn [no_line_feed forallb firstn] in *. apply andb_true_iff in H as [Hc Hs].
  rewrite Hc. now apply IH.
Qed.

Lemma utf8_decode_plain (bs : list N) :
  forallb plain_byte bs = true ->
  utf8_decode bs = bs /\ no_line_feed bs = true.
Proof.
  induction bs as [|b bs IH]; intro H; [split; reflexivity|].
  cbn [forallb] in H. apply andb_true_iff in H as [Hb Hbs].
  unfold plain_byte in Hb. apply andb_true_iff in Hb as [H128 Hlf].
  destruct (IH Hbs) as [Hd Hn]. split.
  - cbn [utf8_decode]. now rewrite H128, Hd.
  - cbn [no_line_feed forallb]. now rewrite Hlf.
Qed.

Lemma digits_plain (d : Decimal.uint) :
  forallb plain_byte
          (map N_of_ascii (String.list_ascii_of_string (NilEmpty.string_of_uint d)))
  = true.
Proof. induction d; [reflexivity | exact IHd ..]. Qed.

Lemma no_line_feed_str_of_int (z : Z) : no_line_feed (str_of_int z) = true.
Proof.
  unfold str_of_int, utf8.
  assert (H : forallb plain_byte
                (map N_of_ascii
                   (String.list_ascii_of_string (NilZero.string_of_int (Z.to_int z))))
              = true).
  { destruct (Z.to_int z) as [d|d]; unfold NilZero.string_of_int, NilZero.string_of_uint.
    - destruct d; first [reflexivity | apply (digits_plain (_ d))].
    - cbn [String.list_ascii_of_string map forallb].
      destruct d; first [reflexivity | apply (digits_plain (_ d))]. }
  destruct (utf8_decode_plain _ H) as [-> Hn]. exact Hn.
Qed.

Lemma no_line_feed_cells (idx : Z) (e : ext) :
  plain_record e = true -> no_line_feed (row_cells (idx, e)) = true.
Proof.
  unfold plain_record. rewrite !andb_true_iff. intros [[[Hi Hn] Hp] Hv].
  assert (Hid : no_line_feed (ext_id e) = true).
  { unfold ext_id. destruct (50 <? len (id e))%Z; [|exact Hi].
    now rewrite no_line_feed_app, no_line_feed_firstn. }
  assert (Hname : no_line_feed (ext_name e) = true).
  { unfold ext_name. destruct (35 <? len (name e))%Z; [|exact Hn].
    now rewrite no_line_feed_app, no_line_feed_firstn. }
  assert (Hst : no_line_feed (status e) = true).
  { unfold status. now destruct (truthy (enabled e)). }
  unfold row_cells.
  rewrite !no_line_feed_app, !no_line_feed_ljust;
    auto using no_line_feed_str_of_int.
Qed.

Lemma no_line_feed_rows (exts : list ext) (start : Z) :
  forallb plain_record exts = true ->
  forallb no_line_feed (map row_cells (enumerate start exts)) = true.
Proof.
  revert start; induction exts as [|e exts IH]; intros start H; [reflexivity|].
  cbn [forallb] in H. apply andb_true_iff in H as [He Hexts].
  cbn [enumerate map forallb]. now rewrite (no_line_feed_cells start e He), IH.
Qed.

Lemma table_row_cells (row : Z * ext) : table_row row = row_cells row ++ nl.
Proof.
  destruct row as [idx e]. unfold table_row, row_cells.
  rewrite <- !app_assoc. reflexivity.
Qed.

Lemma row_cells_not_empty (row : Z * ext) : row_cells row <> [].
Proof.
  destruct row as [idx e]. unfold row_cells. intro H.
  apply app_eq_nil in H as [_ H]. discriminate H.
Qed.

Lemma listing_head_lines (now : str) (exts : list ext) :
  listing_head now exts = concat (map (fun l => l ++ nl) (head_lines now exts)).
Proof.
  unfold listing_head, head_lines, rule. cbn [map concat].
  rewrite app_nil_r, <- !app_assoc. reflexivity.
Qed.

Lemma no_line_feed_head (now : str) (exts : list ext) :
  no_line_feed now = true -> forallb no_line_feed (head_lines now exts) = true.
Proof.
  intro H. unfold head_lines. cbn [forallb].
  rewrite !no_line_feed_app, H, no_line_feed_str_of_int. reflexivity.
Qed.

Lemma leading_rows (rows : list str) (rest : list str) :
  (forall r, In r rows -> r <> []) ->
  leading_nonblank (rows ++ [] :: rest) = rows.
Proof.
  induction rows as [|r rows IH]; intro H; [reflexivity|].
  cbn [app leading_nonblank].
  destruct r as [|c r]; [now destruct (H [] (or_introl eq_refl))|].
  f_equal. apply IH. intros r' Hr'. apply H. now right.
Qed.

(** The listing read line by line: the seven lines of the head, then the
    cells of each record, then the lines of the category breakdown. *)
Lemma lines_of_output (lower : str -> str) (now : str) (exts : list ext) :
  no_line_feed now = true ->
  forallb plain_record exts = true ->
  lines (output lower now exts)
  = head_lines now exts ++ map row_cells (enumerate 1 exts)
    ++ lines (listing_tail lower exts).
Proof.
  intros Hnow Hplain.
  rewrite output_rows, listing_head_lines.
  rewrite (lines_of_lines _ _ (no_line_feed_head now exts Hnow)). f_equal.
  unfold table_rows.
  rewrite (map_ext table_row (fun r => row_cells r ++ nl) table_row_cells).
  rewrite <- (map_map row_cells (fun l => l ++ nl)).
  apply lines_of_lines, no_line_feed_rows, Hplain.
Qed.

Lemma table_lines_of_output (lower : str -> str) (now : str) (exts : list ext) :
  no_line_feed now = true ->
  forallb plain_record exts = true ->
  table_lines (output lower now exts) = map row_cells (enumerate 1 exts).
Proof.
  intros Hnow Hplain. unfold table_lines.
  rewrite (lines_of_output lower now exts Hnow Hplain).
  unfold head_lines. cbn [app skipn].
  assert (Htail : exists rest, lines (listing_tail lower exts) = [] :: rest).
  { unfold listing_tail. eexists. reflexivity. }
  destruct Htail as [rest ->].
  apply leading_rows. intros r Hr.
  apply in_map_iff in Hr as (row & <- & _). apply row_cells_not_empty.
Qed.

(** C1, as the script has it. For every well-formed input mapping the record
    list holds exactly one record per entry whose value is a structured
    object, in the order of the mapping before sorting (the other entries are
    skipped); each record has the key as id and takes name, publisher and
    version from the object or "N/A", and enabled from the object or true; the
    listing is its head, then one row text per record in list order, then the
    category breakdown. When neither the date nor any id, name, publisher or
    version holds a line feed, the table a reader finds in the listing (its
    lines after the seven lines of the head, up to the blank line that
    follows) has exactly one line per record: the six cells of that record,
    numbered from 1. *)
Theorem C1_records_and_table_lines
    (lower : str -> str) (items : list (str * json)) (now : str) :
  well_formed items = true ->
  exists built exts,
    build items = Some built
    /\ extensions items = Some exts
    /\ Forall2 record_of (filter is_object_entry items) built
    /\ Permutation built exts
    /\ output lower now exts
       = listing_head now exts ++ concat (table_rows exts) ++ listing_tail lower exts
    /\ Forall2 (fun e row => exists idx, row = table_row (idx, e)) exts (table_rows exts)
    /\ length (table_rows exts) = length (filter is_object_entry items)
    /\ (no_line_feed now = true -> forallb plain_record exts = true ->
        table_lines (output lower now exts) = map row_cells (enumerate 1 exts)
        /\ length (table_lines (output lower now exts))
           = length (filter is_object_entry items)).
Proof.
  intro Hwf.
  destruct (proj1 (build_from_defined items []) Hwf) as [built Hb].
  exists built, (sort_by_name built).
  assert (HF := build_spec items built Hb).
  assert (Hlen : length (sort_by_name built) = length (filter is_object_entry items)).
  { rewrite <- (Permutation_length (sort_by_name_perm built)).
    symmetry. eapply Forall2_length; eassumption. }
  split; [exact Hb|].
  split; [unfold extensions, build; now rewrite Hb|].
  split; [exact HF|].
  split; [apply sort_by_name_perm|].
  split; [apply output_rows|].
  split; [apply table_rows_each|].
  split; [unfold table_rows; now rewrite length_map, enumerate_length|].
  intros Hnow Hplain.
  rewrite (table_lines_of_output lower now _ Hnow Hplain).
  split; [reflexivity|]. now rewrite length_map, enumerate_length.
Qed.

(** C1 as stated fails: a well-formed mapping of one object whose name holds
    a line feed gives one record, and a table of two lines. *)
Lemma C1_line_feed_in_a_name :
  well_formed two_line_items = true
  /\ extensions two_line_items = Some [two_line_ext]
  /\ length (filter is_object_entry two_line_items) = 1%nat
  /\ length (table_lines (output ascii_lower stamp1 [two_line_ext])) = 2%nat.
Proof. repeat split; vm_compute; reflexivity. Qed.

(** C6. For every input the sorted record list is non-decreasing by name in
    the lexicographic order of strings, it holds the records built from the
    mapping, and the records of any one name stand in it in the order the
    mapping has them. *)
Theorem C6_sorted_by_name_and_stable (items : list (str * json)) (exts : list ext) :
  extensions items = Some exts ->
  exists built,
    build items = Some built
    /\ Forall2 record_of (filter is_object_entry items) built
    /\ Permutation built exts
    /\ StronglySorted name_le exts
    /\ (forall n, named n exts = named n built).
Proof.
  unfold extensions. destruct (build items) as [built|] eqn:Hb; [|discriminate].
  simpl. intro H; inversion H; subst exts. exists built.
  repeat split.
  - now apply build_spec.
  - apply sort_by_name_perm.
  - apply sort_by_name_sorted.
  - intro n. apply sort_by_name_stable.
Qed.

(** ** Truncation of the cells *)

Lemma ends_with_app (p a : str) : ends_with p (a ++ p) = true.
Proof. apply ends_with_suffix. now exists a. Qed.

Lemma ljust_length (w : nat) (s : str) : length (ljust w s) = Nat.max w (length s).
Proof. unfold ljust. rewrite length_app, repeat_length. lia. Qed.

Lemma cut_spec (w keep : nat) (s : str) :
  keep + 3 = w ->
  let cell := if (Z.of_nat w <? len s)%Z then firstn keep s ++ utf8 "..." else s in
  (length cell <= w)%nat
  /\ ((w < length s)%nat ->
      cell = firstn keep s ++ utf8 "..." /\ length cell = w
      /\ ends_with (utf8 "...") cell = true)
  /\ ((length s <= w)%nat -> cell = s)
  /\ (ends_with (utf8 "...") s = false ->
      (ends_with (utf8 "...") cell = true <-> (w < length s)%nat))
  /\ length (ljust w cell) = w.
Proof.
  intros Hw cell. unfold len in cell.
  assert (Hlong : (w < length s)%nat ->
                  cell = firstn keep s ++ utf8 "..." /\ length cell = w).
  { intro H. subst cell. destruct (Z.ltb_spec (Z.of_nat w) (Z.of_nat (length s))); [|lia].
    split; [reflexivity|]. rewrite length_app, length_firstn. simpl. lia. }
  assert (Hshort : (length s <= w)%nat -> cell = s).
  { intro H. subst cell. destruct (Z.ltb_spec (Z.of_nat w) (Z.of_nat (length s))); [lia|].
    reflexivity. }
  assert (Hlen : (length cell <= w)%nat).
  { destruct (Nat.lt_ge_cases w (length s)) as [H|H].
    - apply Hlong in H as [_ H]. lia.
    - rewrite (Hshort H). exact H. }
  repeat split; try tauto.
  - apply Hlong in H as [-> _]. apply ends_with_app.
  - intro Hc. destruct (Nat.lt_ge_cases w (length s)) as [H'|H']; [exact H'|].
    rewrite (Hshort H') in Hc. congruence.
  - intro H'. apply Hlong in H' as [-> _]. apply ends_with_app.
  - rewrite ljust_length. lia.
Qed.

(** C7, as the script has it. The id goes into its cell unchanged when it has
    at most 50 characters, and as its first 47 characters followed by "..."
    when it has more; so the text is never longer than 50, it ends in "..."
    whenever the id is longer than 50, and for an id that does not itself end
    in "..." only then; padded, the cell is exactly 50 wide. The same holds of
    the name with 35 and 32. *)
Theorem C7_cells_cut_to_width (e : ext) :
  ((length (ext_id e) <= 50)%nat
   /\ ((50 < length (id e))%nat ->
       ext_id e = firstn 47 (id e) ++ utf8 "..." /\ length (ext_id e) = 50%nat
       /\ ends_with (utf8 "...") (ext_id e) = true)
   /\ ((length (id e) <= 50)%nat -> ext_id e = id e)
   /\ (ends_with (utf8 "...") (id e) = false ->
       (ends_with (utf8 "...") (ext_id e) = true <-> (50 < length (id e))%nat))
   /\ length (ljust 50 (ext_id e)) = 50%nat)
  /\
  ((length (ext_name e) <= 35)%nat
   /\ ((35 < length (name e))%nat ->
       ext_name e = firstn 32 (name e) ++ utf8 "..." /\ length (ext_name e) = 35%nat
       /\ ends_with (utf8 "...") (ext_name e) = true)
   /\ ((length (name e) <= 35)%nat -> ext_name e = name e)
   /\ (ends_with (utf8 "...") (name e) = false ->
       (ends_with (utf8 "...") (ext_name e) = true <-> (35 < length (name e))%nat))
   /\ length (ljust 35 (ext_name e)) = 35%nat).
Proof.
  split.
  - exact (cut_spec 50 47 (id e) eq_refl).
  - exact (cut_spec 35 32 (name e) eq_refl).
Qed.

(** C7 as stated fails: an id of exactly 50 characters that ends in "..." 
    is not cut, and its cell ends in "..." all the same; likewise a name of
    exactly 35 characters. *)
Lemma C7_dots_without_cut :
  ~ (ends_with (utf8 "...") (ext_id dotted_ext) = true
     <-> (50 < length (id dotted_ext))%nat)
  /\ ~ (ends_with (utf8 "...") (ext_name dotted_ext) = true
        <-> (35 < length (name dotted_ext))%nat)
  /\ length (id dotted_ext) = 50%nat
  /\ ext_id dotted_ext = id dotted_ext
  /\ ends_with (utf8 "...") (ext_id dotted_ext) = true
  /\ ends_with (utf8 "...") (ljust 50 (ext_id dotted_ext)) = true
  /\ length (name dotted_ext) = 35%nat
  /\ ext_name dotted_ext = name dotted_ext
  /\ ends_with (utf8 "...") (ext_name dotted_ext) = true
  /\ ends_with (utf8 "...") (ljust 35 (ext_name dotted_ext)) = true.
Proof.
  split; [|split].
  - intros [H _]. specialize (H eq_refl). vm_compute in H. lia.
  - intros [H _]. specialize (H eq_refl). vm_compute in H. lia.
  - repeat split; vm_compute; reflexivity.
Qed.

(** ** Categories *)

Lemma ascii_lower_on_ascii : lower_on_ascii ascii_lower.
Proof. intros s _. reflexivity. Qed.

(** The classifier sees a record only through the lower-cased id and name. *)
Lemma classify_ext (lower lower' : str -> str) (e : ext) :
  lower (id e) = lower' (id e) -> lower (name e) = lower' (name e) ->
  is_language lower e = is_language lower' e
  /\ is_theme lower e = is_theme lower' e
  /\ is_git lower e = is_git lower' e
  /\ is_debug lower e = is_debug lower' e
  /\ is_format lower e = is_format lower' e
  /\ name_key lower e = name_key lower' e.
Proof.
  intros Hi Hn. unfold is_language, is_theme, is_git, is_debug, is_format, name_key.
  rewrite Hi, Hn. repeat split.
Qed.

Lemma ascii_records_lower (lower : str -> str) (exts : list ext) :
  lower_on_ascii lower -> ascii_records exts = true ->
  forall e, In e exts ->
            lower (id e) = ascii_lower (id e) /\ lower (name e) = ascii_lower (name e).
Proof.
  intros Hlaw Ha e He. unfold ascii_records in Ha. rewrite forallb_forall in Ha.
  apply Ha in He. apply andb_true_iff in He as [Hi Hn]. split; now apply Hlaw.
Qed.

Lemma categories_on_ascii (lower : str -> str) (exts : list ext) :
  lower_on_ascii lower -> ascii_records exts = true ->
  language_exts lower exts = language_exts ascii_lower exts
  /\ theme_exts lower exts = theme_exts ascii_lower exts
  /\ git_exts lower exts = git_exts ascii_lower exts
  /\ debug_exts lower exts = debug_exts ascii_lower exts
  /\ format_exts lower exts = format_exts ascii_lower exts.
Proof.
  intros Hlaw Ha.
  assert (H := ascii_records_lower lower exts Hlaw Ha).
  unfold language_exts, theme_exts, git_exts, debug_exts, format_exts.
  repeat split; apply filter_ext_in; intros e He;
    destruct (H e He) as [Hi Hn]; apply (classify_ext lower ascii_lower e Hi Hn).
Qed.

Lemma other_count_on_ascii (lower : str -> str) (exts : list ext) :
  lower_on_ascii lower -> ascii_records exts = true ->
  other_count lower exts = other_count ascii_lower exts.
Proof.
  intros Hlaw Ha. unfold other_count.
  destruct (categories_on_ascii lower exts Hlaw Ha) as (-> & -> & -> & -> & ->).
  reflexivity.
Qed.

Lemma name_groups_on_ascii (lower : str -> str) (exts : list ext) :
  lower_on_ascii lower -> ascii_records exts = true ->
  name_groups lower exts = name_groups ascii_lower exts.
Proof.
  intros Hlaw Ha. assert (H := ascii_records_lower lower exts Hlaw Ha).
  unfold name_groups. generalize (@nil (str * list ext)) as groups.
  induction exts as [|e exts IH]; intro groups; [reflexivity|].
  simpl. rewrite !add_to_groups_join.
  destruct (H e (or_introl eq_refl)) as [Hi Hn].
  destruct (classify_ext lower ascii_lower e Hi Hn) as (_ & _ & _ & _ & _ & ->).
  rewrite <- add_to_groups_join. apply IH.
  - simpl in Ha. now apply andb_true_iff in Ha.
  - intros x Hx. apply H. now right.
Qed.

Lemma in_filter_iff (p : ext -> bool) (exts : list ext) (e : ext) (P : Prop) :
  (p e = true <-> P) -> (In e (filter p exts) <-> In e exts /\ P).
Proof. intro H. rewrite filter_In. tauto. Qed.

(** C3. Given that lower-casing does to ASCII text what it should, a record of
    the list is in a category exactly under the substring rules: language when
    "language" occurs in the lower-cased id or name or "syntax" in the
    lower-cased id; theme, git and debug when the word occurs in the lower-cased
    id or name; format when one of "formatter", "linter", "prettier", "eslint"
    occurs in the lower-cased id, the name playing no part. One record can be in
    two categories, and a format word in the name alone does not make a record
    a format record. *)
Theorem C3_category_rules
    (lower : str -> str) (Hlaw : lower_on_ascii lower) (exts : list ext) (e : ext) :
  (In e (language_exts lower exts) <->
   In e exts /\ (occurs (utf8 "language") (lower (id e))
                 \/ occurs (utf8 "language") (lower (name e))
                 \/ occurs (utf8 "syntax") (lower (id e))))
  /\ (In e (theme_exts lower exts) <->
      In e exts /\ (occurs (utf8 "theme") (lower (id e))
                    \/ occurs (utf8 "theme") (lower (name e))))
  /\ (In e (git_exts lower exts) <->
      In e exts /\ (occurs (utf8 "git") (lower (id e))
                    \/ occurs (utf8 "git") (lower (name e))))
  /\ (In e (debug_exts lower exts) <->
      In e exts /\ (occurs (utf8 "debug") (lower (id e))
                    \/ occurs (utf8 "debug") (lower (name e))))
  /\ (In e (format_exts lower exts) <->
      In e exts /\ (occurs (utf8 "formatter") (lower (id e))
                    \/ occurs (utf8 "linter") (lower (id e))
                    \/ occurs (utf8 "prettier") (lower (id e))
                    \/ occurs (utf8 "eslint") (lower (id e))))
  /\ (In overlap_ext (theme_exts lower [overlap_ext])
      /\ In overlap_ext (git_exts lower [overlap_ext]))
  /\ (forall x, id x = utf8 "acme.tidy" -> name x = utf8 "Prettier" ->
                occurs (utf8 "prettier") (lower (name x))
                /\ format_exts lower [x] = []).
Proof.
  split; [|split; [|split; [|split; [|split; [|split; [split|]]]]]].
  - apply in_filter_iff. unfold is_language.
    rewrite !orb_true_iff, !contains_occurs. tauto.
  - apply in_filter_iff. unfold is_theme.
    rewrite !orb_true_iff, !contains_occurs. tauto.
  - apply in_filter_iff. unfold is_git.
    rewrite !orb_true_iff, !contains_occurs. tauto.
  - apply in_filter_iff. unfold is_debug.
    rewrite !orb_true_iff, !contains_occurs. tauto.
  - apply in_filter_iff. unfold is_format, format_words. cbn [existsb].
    rewrite orb_false_r, !orb_true_iff, !contains_occurs. tauto.
  - destruct (categories_on_ascii lower [overlap_ext] Hlaw eq_refl)
      as (_ & -> & _ & _ & _). vm_compute. tauto.
  - destruct (categories_on_ascii lower [overlap_ext] Hlaw eq_refl)
      as (_ & _ & -> & _ & _). vm_compute. tauto.
  - intros x Hi Hn. split.
    + rewrite Hn, (Hlaw (utf8 "Prettier") eq_refl). apply contains_occurs. reflexivity.
    + unfold format_exts. simpl. unfold is_format.
      rewrite Hi, (Hlaw (utf8 "acme.tidy") eq_refl). reflexivity.
Qed.

(** ** The residual count *)

Lemma filter_len_le {A : Type} (p : A -> bool) (l : list A) : (len (filter p l) <= len l)%Z.
Proof. unfold len. apply inj_le, filter_length_le. Qed.

Lemma output_last_line (lower : str -> str) (now : str) (exts : list ext) :
  exists pre,
    output lower now exts
    = pre ++ utf8 "기타: " ++ str_of_int (other_count lower exts) ++ utf8 "개" ++ nl.
Proof.
  unfold output, listing_tail. eexists. rewrite !app_assoc. reflexivity.
Qed.

(** C4. The residual the listing reports in its last line is the total number
    of records minus the sum of the five category counts; each category count
    is at most the total; and, lower-casing doing to ASCII text what it should,
    there is an input mapping with one record in two categories whose residual
    is negative. *)
Theorem C4_residual_count
    (lower : str -> str) (Hlaw : lower_on_ascii lower) (exts : list ext) (now : str) :
  other_count lower exts
  = (len exts - (len (language_exts lower exts) + len (theme_exts lower exts)
                 + len (git_exts lower exts) + len (debug_exts lower exts)
                 + len (format_exts lower exts)))%Z
  /\ (exists pre,
        output lower now exts
        = pre ++ utf8 "기타: " ++ str_of_int (other_count lower exts) ++ utf8 "개" ++ nl)
  /\ (len (language_exts lower exts) <= len exts)%Z
  /\ (len (theme_exts lower exts) <= len exts)%Z
  /\ (len (git_exts lower exts) <= len exts)%Z
  /\ (len (debug_exts lower exts) <= len exts)%Z
  /\ (len (format_exts lower exts) <= len exts)%Z
  /\ (exists items exts',
        extensions items = Some exts'
        /\ In overlap_ext (theme_exts lower exts')
        /\ In overlap_ext (git_exts lower exts')
        /\ (other_count lower exts' < 0)%Z).
Proof.
  repeat apply conj; try apply filter_len_le.
  - unfold other_count. lia.
  - apply output_last_line.
  - exists overlap_items, [overlap_ext].
    rewrite (other_count_on_ascii lower [overlap_ext] Hlaw eq_refl).
    destruct (categories_on_ascii lower [overlap_ext] Hlaw eq_refl)
      as (_ & -> & -> & _ & _).
    vm_compute. repeat split; auto; discriminate.
Qed.

(** ** The removal tally *)

Lemma tally_fold (groups : list (list ext)) (r : Z) :
  (forall g, In g groups -> (1 <? len g)%Z = true) ->
  fold_left (fun r group => if (1 <? len group)%Z then (r + (len group - 1))%Z else r)
            groups r
  = (r + sum_Z (map (fun g => len g - 1) groups))%Z.
Proof.
  revert r; induction groups as [|g groups IH]; intros r H; simpl.
  - lia.
  - rewrite (H g (or_introl eq_refl)), IH; [lia|].
    intros g' Hg'. apply H. now right.
Qed.

Lemma duplicates_large (lower : str -> str) (exts : list ext) (g : list ext) :
  In g (duplicates lower exts) -> (1 <? len g)%Z = true.
Proof. unfold duplicates. rewrite filter_In. tauto. Qed.

Lemma recommended_removals_sum (lower : str -> str) (exts : list ext) :
  recommended_removals lower exts
  = (len (disabled_exts exts)
     + sum_Z (map (fun g => len g - 1) (duplicates lower exts)))%Z.
Proof.
  unfold recommended_removals.
  rewrite tally_fold by apply duplicates_large.
  destruct (disabled_exts exts); reflexivity.
Qed.

Lemma analysis_last_line (lower : str -> str) (exts : list ext) :
  exists pre,
    analysis lower exts
    = pre ++ utf8 "현재 총 " ++ str_of_int (len exts) ++ utf8 "개 중 "
      ++ str_of_int (kept lower exts) ++ utf8 "개 유지 권장" ++ nl.
Proof.
  unfold analysis, summary. eexists. rewrite !app_assoc. reflexivity.
Qed.

Lemma alpha_duplicates (lower : str -> str) :
  duplicates lower [alpha1; alpha2] = [[alpha1; alpha2]].
Proof.
  unfold duplicates, name_groups. cbn [fold_left].
  rewrite !add_to_groups_join.
  change (name_key lower alpha2) with (name_key lower alpha1).
  cbn [join_group]. rewrite str_eqb_refl. reflexivity.
Qed.

(** C2. For every record list the removal tally is the number of disabled
    records plus the sum, over the duplicate groups, of the group size minus
    one, with no correction for a record that is in both; the figure reported
    as kept in the last line of the analysis is the total minus the tally. In
    the scenario of two records named alike, the first disabled, that record is
    in the disabled list and in the one duplicate group, the tally is
    1 + 1 = 2 and nothing is kept. *)
Theorem C2_removal_tally (lower : str -> str) (exts : list ext) :
  recommended_removals lower exts
  = (len (disabled_exts exts)
     + sum_Z (map (fun g => len g - 1) (duplicates lower exts)))%Z
  /\ kept lower exts = (len exts - recommended_removals lower exts)%Z
  /\ (exists pre,
        analysis lower exts
        = pre ++ utf8 "현재 총 " ++ str_of_int (len exts) ++ utf8 "개 중 "
          ++ str_of_int (len exts - recommended_removals lower exts)
          ++ utf8 "개 유지 권장" ++ nl)
  /\ (extensions alpha_items = Some [alpha1; alpha2]
      /\ disabled_exts [alpha1; alpha2] = [alpha1]
      /\ duplicates lower [alpha1; alpha2] = [[alpha1; alpha2]]
      /\ recommended_removals lower [alpha1; alpha2] = 2%Z
      /\ kept lower [alpha1; alpha2] = 0%Z).
Proof.
  split; [apply recommended_removals_sum|].
  split; [reflexivity|].
  split; [apply analysis_last_line|].
  assert (Ht : recommended_removals lower [alpha1; alpha2] = 2%Z).
  { rewrite recommended_removals_sum, alpha_duplicates. reflexivity. }
  repeat split.
  - apply alpha_duplicates.
  - exact Ht.
  - unfold kept. rewrite Ht. reflexivity.
Qed.

(** ** Duplicate groups *)

Lemma group_of_key (lower : str -> str) (exts : list ext) (g : list ext) :
  In g (dict_values (name_groups lower exts)) ->
  exists k, In (k, g) (name_groups lower exts)
            /\ g = filter (fun e => str_eqb (name_key lower e) k) exts.
Proof.
  unfold dict_values. rewrite in_map_iff. intros [[k g'] [<- Hin]]. exists k.
  split; [exact Hin|].
  now apply (name_groups_grouped lower exts).
Qed.

Lemma member_key (lower : str -> str) (exts : list ext) (k : str) (e : ext) :
  In e (filter (fun x => str_eqb (name_key lower x) k) exts) <->
  In e exts /\ name_key lower e = k.
Proof. rewrite filter_In, str_eqb_eq. tauto. Qed.

Lemma same_group_iff (lower : str -> str) (exts : list ext) (x y : ext) :
  In x exts -> In y exts ->
  (same_group (dict_values (name_groups lower exts)) x y <->
   name_key lower x = name_key lower y).
Proof.
  intros Hx Hy. split.
  - intros (g & Hg & Hxg & Hyg).
    apply group_of_key in Hg as (k & _ & ->).
    apply member_key in Hxg as [_ ->]. apply member_key in Hyg as [_ ->]. reflexivity.
  - intro Hk.
    destruct (name_groups_grouped lower exts) as (_ & Hmem & Hcov & _).
    destruct (Hcov x Hx) as [g Hg]. exists g. split.
    + unfold dict_values. apply in_map_iff. now exists (name_key lower x, g).
    + apply Hmem in Hg as [-> _]. split; apply member_key; auto.
Qed.

(** C5. Given that lower-casing does to ASCII text what it should: two records
    of the list are in one name group exactly when their names agree once
    lower-cased and rid of spaces; the groups reported as duplicates are the
    name groups of more than one member; each group holds the records of its
    key in the order of the record list it was built from; and of three
    records named "Foo Bar", "foobar" and "Baz", sorted, the first two form the
    one duplicate group and the third is in none. *)
Theorem C5_duplicate_name_groups
    (lower : str -> str) (Hlaw : lower_on_ascii lower) (exts : list ext) :
  (forall x y, In x exts -> In y exts ->
     (same_group (dict_values (name_groups lower exts)) x y <->
      remove_spaces (lower (name x)) = remove_spaces (lower (name y))))
  /\ (forall g, In g (duplicates lower exts) <->
                In g (dict_values (name_groups lower exts)) /\ (1 < length g)%nat)
  /\ (forall k g, In (k, g) (name_groups lower exts) ->
                  g = filter (fun e => str_eqb (remove_spaces (lower (name e))) k) exts)
  /\ (sort_by_name [foo_bar; foobar; baz] = [baz; foo_bar; foobar]
      /\ duplicates lower (sort_by_name [foo_bar; foobar; baz]) = [[foo_bar; foobar]]).
Proof.
  split; [|split; [|split]].
  - intros x y Hx Hy. apply (same_group_iff lower exts x y Hx Hy).
  - intro g. unfold duplicates. rewrite filter_In. unfold len.
    rewrite Z.ltb_lt. split; intros [H1 H2]; split; auto; lia.
  - intros k g Hin. now apply (name_groups_grouped lower exts).
  - split; [reflexivity|].
    unfold duplicates.
    rewrite (name_groups_on_ascii lower (sort_by_name [foo_bar; foobar; baz]) Hlaw eq_refl).
    reflexivity.
Qed.

(** ** The grouping is a partition *)

Lemma concat_perm {A : Type} (l l' : list (list A)) :
  Permutation l l' -> Permutation (concat l) (concat l').
Proof.
  induction 1; simpl.
  - constructor.
  - now apply Permutation_app_head.
  - rewrite !app_assoc. apply Permutation_app_tail, Permutation_app_comm.
  - etransitivity; eassumption.
Qed.

(** C10. The name groups partition the record list: no key files two groups;
    every record of the list is in a group and in no other; the groups put end
    to end, in whatever order, are a permutation of the record list; and the
    group sizes add up to the number of records. *)
Theorem C10_name_groups_partition (lower : str -> str) (exts : list ext) :
  NoDup (map fst (name_groups lower exts))
  /\ (forall e, In e exts ->
        exists k g,
          In (k, g) (name_groups lower exts) /\ In e g
          /\ forall k' g', In (k', g') (name_groups lower exts) -> In e g' ->
                           k' = k /\ g' = g)
  /\ (forall gs, Permutation gs (dict_values (name_groups lower exts)) ->
                 Permutation (concat gs) exts)
  /\ list_sum (map (@length ext) (dict_values (name_groups lower exts))) = length exts.
Proof.
  destruct (name_groups_grouped lower exts) as (Hnd & Hmem & Hcov & Hperm).
  split; [exact Hnd|]. split; [|split].
  - intros e He. destruct (Hcov e He) as [g Hg].
    exists (name_key lower e), g. split; [exact Hg|].
    destruct (Hmem _ _ Hg) as [Eg _]. split.
    + rewrite Eg. apply member_key. auto.
    + intros k' g' Hg' Hin. destruct (Hmem _ _ Hg') as [Eg' _].
      rewrite Eg' in Hin. apply member_key in Hin as [_ Hk]. subst k'.
      split; [reflexivity | congruence].
  - intros gs Hgs. rewrite (concat_perm _ _ Hgs). exact Hperm.
  - rewrite <- length_concat. now apply Permutation_length.
Qed.

(** ** Runs of the script *)

Lemma body_missing (lower : str -> str) (w : world) :
  path_exists w extensions_json_path = false ->
  body lower w []
  = (Raise (FileNotFoundError (utf8 "파일을 찾을 수 없습니다: " ++ extensions_json_path)),
     [Stdout (utf8 "확장 프로그램 파일 읽는 중...");
      Stdout (utf8 "파일 경로: " ++ extensions_json_path);
      PathExists extensions_json_path]).
Proof.
  intro H. cbv [body bind print ask raise ret]. rewrite H. reflexivity.
Qed.

Lemma paths_distinct :
  str_eqb output_path analysis_path = false
  /\ str_eqb error_path analysis_path = false
  /\ str_eqb error_path output_path = false
  /\ str_eqb analysis_path output_path = false.
Proof. repeat split; vm_compute; reflexivity. Qed.

(** What a run that gets as far as the documents does. *)
Lemma body_documents (lower : str -> str) (w : world) (pairs : list (str * json))
      (size : Z) (exts : list ext) :
  path_exists w extensions_json_path = true ->
  json_load w extensions_json_path = inr (JDict pairs) ->
  getsize w extensions_json_path = inr size ->
  extensions pairs = Some exts ->
  let before :=
    [Stdout (utf8 "확장 프로그램 파일 읽는 중...");
     Stdout (utf8 "파일 경로: " ++ extensions_json_path);
     PathExists extensions_json_path;
     JsonLoad extensions_json_path;
     GetSize extensions_json_path;
     Stdout (utf8 "파일 크기: " ++ str_of_int size ++ utf8 " bytes");
     Stdout (utf8 "JSON 파싱 성공");
     Stdout (nl ++ utf8 "총 확장 프로그램 수: " ++ str_of_int (len exts));
     ReadClock] in
  let between :=
    [Stdout (nl ++ utf8 "목록이 다음 파일에 저장되었습니다:" ++ nl ++ output_path);
     Stdout (utf8 "파일 크기: " ++ str_of_int (len (output lower (clock w) exts))
            ++ utf8 " bytes")] in
  let after :=
    [Stdout (analysis lower exts);
     Stdout (nl ++ utf8 "분석 결과가 다음 파일에 저장되었습니다:" ++ nl ++ analysis_path)] in
  body lower w []
  = match write_error w output_path, write_error w analysis_path,
          stdout_error w (analysis lower exts) with
    | Some e, _, _ =>
        (Raise e, before ++ [FileWriteFailed output_path (output lower (clock w) exts)])
    | None, Some e, _ =>
        (Raise e, before ++ [FileWrite output_path (output lower (clock w) exts)] ++ between
                  ++ [FileWriteFailed analysis_path (analysis lower exts)])
    | None, None, Some e =>
        (Raise e, before ++ [FileWrite output_path (output lower (clock w) exts)] ++ between
                  ++ [FileWrite analysis_path (analysis lower exts);
                      StdoutFailed (analysis lower exts)])
    | None, None, None =>
        (Ok tt, before ++ [FileWrite output_path (output lower (clock w) exts)] ++ between
                ++ [FileWrite analysis_path (analysis lower exts)] ++ after)
    end.
Proof.
  intros Hex Hload Hsize Hexts.
  cbv [body bind print print_text ask raise ret items in_schema write_file].
  rewrite Hex, Hload, Hsize, Hexts. cbn [negb].
  destruct (write_error w output_path); [reflexivity|].
  destruct (write_error w analysis_path); [reflexivity|].
  destruct (stdout_error w (analysis lower exts)); reflexivity.
Qed.

Ltac run_cases H :=
  cbv [main body bind print print_text ask raise ret items in_schema write_file handler]
    in H;
  repeat match type of H with
         | context [match ?x with _ => _ end] =>
             lazymatch x with
             | context [match _ with _ => _ end] => fail
             | _ => destruct x eqn:?; cbn [negb] in H
             end
         end.

Lemma main_written_analysis (lower : str -> str) (w : world) (o : outcome) (c : str) :
  main lower w = Some o -> In c (written analysis_path (trace o)) ->
  exists pairs exts,
    json_load w extensions_json_path = inr (JDict pairs)
    /\ extensions pairs = Some exts
    /\ c = analysis lower exts.
Proof.
  intros Hm Hin. run_cases Hm.
  all: try discriminate Hm.
  all: inversion Hm; subst o; clear Hm.
  all: cbv [written] in Hin; cbn [trace flat_map app] in Hin.
  all: destruct paths_distinct as (E1 & E2 & E3 & E4).
  all: rewrite ?E1, ?E2, ?str_eqb_refl in Hin; cbn [app] in Hin.
  all: try contradiction.
  all: destruct Hin as [<- | []]; eauto.
Qed.

Lemma main_written_output (lower : str -> str) (w : world) (o : outcome) (l : str) :
  main lower w = Some o -> In l (written output_path (trace o)) ->
  exists pairs exts,
    json_load w extensions_json_path = inr (JDict pairs)
    /\ extensions pairs = Some exts
    /\ l = output lower (clock w) exts.
Proof.
  intros Hm Hin. run_cases Hm.
  all: try discriminate Hm.
  all: inversion Hm; subst o; clear Hm.
  all: cbv [written] in Hin; cbn [trace flat_map app] in Hin.
  all: destruct paths_distinct as (E1 & E2 & E3 & E4).
  all: rewrite ?E3, ?E4, ?str_eqb_refl in Hin; cbn [app] in Hin.
  all: try contradiction.
  all: destruct Hin as [<- | []]; eauto.
Qed.

(** The listing tells two readings of the clock apart. *)
Lemma output_clock (lower : str -> str) (now1 now2 : str) (exts : list ext) :
  output lower now1 exts = output lower now2 exts -> now1 = now2.
Proof.
  rewrite !output_rows. unfold listing_head.
  rewrite <- !app_assoc. intro H.
  apply app_inv_head in H. apply app_inv_head in H. apply app_inv_head in H.
  now apply app_inv_tail in H.
Qed.

(** A run on a present, well-formed input with a writable disk. *)
Lemma main_completes (lower : str -> str) (pairs : list (str * json)) (now : str)
      (exts : list ext) :
  extensions pairs = Some exts ->
  exists o,
    main lower (world_with (JDict pairs) now) = Some o
    /\ exit_code o = 0%Z
    /\ written output_path (trace o) = [output lower now exts]
    /\ written analysis_path (trace o) = [analysis lower exts].
Proof.
  intro Hexts. unfold main.
  rewrite (body_documents lower (world_with (JDict pairs) now) pairs 2 exts
             eq_refl eq_refl eq_refl Hexts).
  cbn [write_error stdout_error world_with clock]. eexists. split; [reflexivity|].
  cbn [exit_code trace]. split; [reflexivity|].
  destruct paths_distinct as (E1 & E2 & E3 & E4).
  cbv [written]. cbn [flat_map app].
  rewrite E1, E4, !str_eqb_refl. split; reflexivity.
Qed.

(** C8. When the input path does not exist, the script raises
    FileNotFoundError with a message that holds the path, having neither opened
    nor parsed anything; the handler prints the error text, which holds that
    message, and tries to write it to the error file; whether that write
    succeeds or fails, nothing else happens and the exit code is 1. *)
Theorem C8_missing_input_file (lower : str -> str) (w : world) :
  path_exists w extensions_json_path = false ->
  exists msg out,
    body lower w []
    = (Raise (FileNotFoundError msg),
       [Stdout (utf8 "확장 프로그램 파일 읽는 중...");
        Stdout (utf8 "파일 경로: " ++ extensions_json_path);
        PathExists extensions_json_path])
    /\ occurs extensions_json_path msg
    /\ main lower w = Some out
    /\ exit_code out = 1%Z
    /\ (forall p, ~ In (JsonLoad p) (trace out))
    /\ occurs msg (error_msg w (FileNotFoundError msg))
    /\ trace out
       = [Stdout (utf8 "확장 프로그램 파일 읽는 중...");
          Stdout (utf8 "파일 경로: " ++ extensions_json_path);
          PathExists extensions_json_path;
          Stdout (error_msg w (FileNotFoundError msg));
          match write_error w error_path with
          | None => FileWrite error_path (error_msg w (FileNotFoundError msg))
          | Some _ => FileWriteFailed error_path (error_msg w (FileNotFoundError msg))
          end]
    /\ (write_error w error_path = None ->
        written error_path (trace out) = [error_msg w (FileNotFoundError msg)]).
Proof.
  intro Hex.
  exists (utf8 "파일을 찾을 수 없습니다: " ++ extensions_json_path).
  exists (handler w (FileNotFoundError
                       (utf8 "파일을 찾을 수 없습니다: " ++ extensions_json_path))
                  [Stdout (utf8 "확장 프로그램 파일 읽는 중...");
                   Stdout (utf8 "파일 경로: " ++ extensions_json_path);
                   PathExists extensions_json_path]).
  split; [now apply body_missing|].
  split; [exists (utf8 "파일을 찾을 수 없습니다: "), []; now rewrite app_nil_r|].
  split; [unfold main; now rewrite (body_missing lower w Hex)|].
  split; [reflexivity|].
  split.
  { intros p Hin. unfold handler in Hin. cbn [trace app] in Hin.
    destruct (write_error w error_path); cbn [app] in Hin;
      repeat (destruct Hin as [Hin|Hin]; [discriminate|]); exact Hin. }
  split.
  { unfold error_msg. cbn [exn_str].
    exists (utf8 "오류 발생: "), (nl ++ format_exc w (FileNotFoundError
              (utf8 "파일을 찾을 수 없습니다: " ++ extensions_json_path))).
    now rewrite <- !app_assoc. }
  split.
  { unfold handler. cbn [trace app]. now destruct (write_error w error_path). }
  intro Hw. unfold handler. rewrite Hw. cbn [trace app].
  cbv [written]. cbn [flat_map app]. now rewrite str_eqb_refl.
Qed.

(** C9. The analysis document is a function of the input mapping alone: two
    runs that load the same document write the same analysis, whatever the
    clock and the rest of their surroundings. The listing carries the reading
    of the clock: two runs on the same input at different readings write
    different listings. Both happen: on the two-record scenario at two
    readings of the clock, both runs end with exit code 0, write one and the
    same analysis, and write two listings that differ. *)
Theorem C9_analysis_fixed_listing_dated (lower : str -> str) :
  (forall w1 w2 o1 o2 c1 c2,
     json_load w1 extensions_json_path = json_load w2 extensions_json_path ->
     main lower w1 = Some o1 -> main lower w2 = Some o2 ->
     In c1 (written analysis_path (trace o1)) ->
     In c2 (written analysis_path (trace o2)) ->
     c1 = c2)
  /\ (forall w1 w2 o1 o2 l1 l2,
        json_load w1 extensions_json_path = json_load w2 extensions_json_path ->
        main lower w1 = Some o1 -> main lower w2 = Some o2 ->
        In l1 (written output_path (trace o1)) ->
        In l2 (written output_path (trace o2)) ->
        clock w1 <> clock w2 ->
        l1 <> l2)
  /\ (exists o1 o2 a l1 l2,
        main lower (world_with (JDict alpha_items) stamp1) = Some o1
        /\ main lower (world_with (JDict alpha_items) stamp2) = Some o2
        /\ exit_code o1 = 0%Z /\ exit_code o2 = 0%Z
        /\ written analysis_path (trace o1) = [a]
        /\ written analysis_path (trace o2) = [a]
        /\ written output_path (trace o1) = [l1]
        /\ written output_path (trace o2) = [l2]
        /\ l1 <> l2).
Proof.
  split; [|split].
  - intros w1 w2 o1 o2 c1 c2 Hload H1 H2 Hc1 Hc2.
    destruct (main_written_analysis lower w1 o1 c1 H1 Hc1) as (p1 & e1 & L1 & X1 & ->).
    destruct (main_written_analysis lower w2 o2 c2 H2 Hc2) as (p2 & e2 & L2 & X2 & ->).
    rewrite Hload, L2 in L1. inversion L1; subst p2. congruence.
  - intros w1 w2 o1 o2 l1 l2 Hload H1 H2 Hl1 Hl2 Hclock.
    destruct (main_written_output lower w1 o1 l1 H1 Hl1) as (p1 & e1 & L1 & X1 & ->).
    destruct (main_written_output lower w2 o2 l2 H2 Hl2) as (p2 & e2 & L2 & X2 & ->).
    rewrite Hload, L2 in L1. inversion L1; subst p2.
    assert (e1 = e2) by congruence. subst e2.
    intro E. apply Hclock. now apply output_clock in E.
  - destruct (main_completes lower alpha_items stamp1 [alpha1; alpha2] eq_refl)
      as (o1 & M1 & X1 & O1 & A1).
    destruct (main_completes lower alpha_items stamp2 [alpha1; alpha2] eq_refl)
      as (o2 & M2 & X2 & O2 & A2).
    exists o1, o2, (analysis lower [alpha1; alpha2]),
      (output lower stamp1 [alpha1; alpha2]), (output lower stamp2 [alpha1; alpha2]).
    repeat split; auto.
    intro E. apply output_clock in E. discriminate E.
Qed.

(** ** The hypotheses hold of the sample inputs *)

(** C1 on [mixed_items], a well-formed mapping of five entries, four of them
    objects, none of whose texts holds a line feed. *)
Lemma C1_on_mixed_items :
  (well_formed mixed_items = true
   /\ extensions mixed_items = Some mixed_exts
   /\ no_line_feed stamp1 = true
   /\ forallb plain_record mixed_exts = true
   /\ length (table_lines (output ascii_lower stamp1 mixed_exts)) = 4%nat)
  /\ exists built exts,
       build mixed_items = Some built
       /\ extensions mixed_items = Some exts
       /\ Forall2 record_of (filter is_object_entry mixed_items) built
       /\ Permutation built exts
       /\ output ascii_lower stamp1 exts
          = listing_head stamp1 exts ++ concat (table_rows exts)
            ++ listing_tail ascii_lower exts
       /\ Forall2 (fun e row => exists idx, row = table_row (idx, e)) exts (table_rows exts)
       /\ length (table_rows exts) = length (filter is_object_entry mixed_items)
       /\ (no_line_feed stamp1 = true -> forallb plain_record exts = true ->
           table_lines (output ascii_lower stamp1 exts)
           = map row_cells (enumerate 1 exts)
           /\ length (table_lines (output ascii_lower stamp1 exts))
              = length (filter is_object_entry mixed_items)).
Proof.
  split.
  - repeat split.
  - exact (C1_records_and_table_lines ascii_lower mixed_items stamp1 eq_refl).
Defined.

(** C6 on [mixed_items], whose records sort to [mixed_exts]. *)
Lemma C6_on_mixed_items :
  extensions mixed_items = Some mixed_exts
  /\ exists built,
       build mixed_items = Some built
       /\ Forall2 record_of (filter is_object_entry mixed_items) built
       /\ Permutation built mixed_exts
       /\ StronglySorted name_le mixed_exts
       /\ (forall n, named n mixed_exts = named n built).
Proof.
  split.
  - reflexivity.
  - exact (C6_sorted_by_name_and_stable mixed_items mixed_exts eq_refl).
Defined.

(** C3 with ASCII lower-casing, on [mixed_exts] and the record in two
    categories. *)
Lemma C3_on_overlap :
  lower_on_ascii ascii_lower
  /\ (In overlap_ext (language_exts ascii_lower mixed_exts) <->
      In overlap_ext mixed_exts
      /\ (occurs (utf8 "language") (ascii_lower (id overlap_ext))
          \/ occurs (utf8 "language") (ascii_lower (name overlap_ext))
          \/ occurs (utf8 "syntax") (ascii_lower (id overlap_ext))))
  /\ (In overlap_ext (theme_exts ascii_lower mixed_exts) <->
      In overlap_ext mixed_exts
      /\ (occurs (utf8 "theme") (ascii_lower (id overlap_ext))
          \/ occurs (utf8 "theme") (ascii_lower (name overlap_ext))))
  /\ (In overlap_ext (git_exts ascii_lower mixed_exts) <->
      In overlap_ext mixed_exts
      /\ (occurs (utf8 "git") (ascii_lower (id overlap_ext))
          \/ occurs (utf8 "git") (ascii_lower (name overlap_ext))))
  /\ (In overlap_ext (debug_exts ascii_lower mixed_exts) <->
      In overlap_ext mixed_exts
      /\ (occurs (utf8 "debug") (ascii_lower (id overlap_ext))
          \/ occurs (utf8 "debug") (ascii_lower (name overlap_ext))))
  /\ (In overlap_ext (format_exts ascii_lower mixed_exts) <->
      In overlap_ext mixed_exts
      /\ (occurs (utf8 "formatter") (ascii_lower (id overlap_ext))
          \/ occurs (utf8 "linter") (ascii_lower (id overlap_ext))
          \/ occurs (utf8 "prettier") (ascii_lower (id overlap_ext))
          \/ occurs (utf8 "eslint") (ascii_lower (id overlap_ext))))
  /\ (In overlap_ext (theme_exts ascii_lower [overlap_ext])
      /\ In overlap_ext (git_exts ascii_lower [overlap_ext]))
  /\ (forall x, id x = utf8 "acme.tidy" -> name x = utf8 "Prettier" ->
                occurs (utf8 "prettier") (ascii_lower (name x))
                /\ format_exts ascii_lower [x] = []).
Proof.
  split.
  - exact ascii_lower_on_ascii.
  - exact (C3_category_rules ascii_lower ascii_lower_on_ascii mixed_exts overlap_ext).
Defined.

(** C4 with ASCII lower-casing, on [mixed_exts]. *)
Lemma C4_on_mixed_exts :
  lower_on_ascii ascii_lower
  /\ other_count ascii_lower mixed_exts
     = (len mixed_exts
        - (len (language_exts ascii_lower mixed_exts) + len (theme_exts ascii_lower mixed_exts)
           + len (git_exts ascii_lower mixed_exts) + len (debug_exts ascii_lower mixed_exts)
           + len (format_exts ascii_lower mixed_exts)))%Z
  /\ (exists pre,
        output ascii_lower stamp1 mixed_exts
        = pre ++ utf8 "기타: " ++ str_of_int (other_count ascii_lower mixed_exts)
          ++ utf8 "개" ++ nl)
  /\ (len (language_exts ascii_lower mixed_exts) <= len mixed_exts)%Z
  /\ (len (theme_exts ascii_lower mixed_exts) <= len mixed_exts)%Z
  /\ (len (git_exts ascii_lower mixed_exts) <= len mixed_exts)%Z
  /\ (len (debug_exts ascii_lower mixed_exts) <= len mixed_exts)%Z
  /\ (len (format_exts ascii_lower mixed_exts) <= len mixed_exts)%Z
  /\ (exists items exts',
        extensions items = Some exts'
        /\ In overlap_ext (theme_exts ascii_lower exts')
        /\ In overlap_ext (git_exts ascii_lower exts')
        /\ (other_count ascii_lower exts' < 0)%Z).
Proof.
  split.
  - exact ascii_lower_on_ascii.
  - exact (C4_residual_count ascii_lower ascii_lower_on_ascii mixed_exts stamp1).
Defined.

(** C5 with ASCII lower-casing, on the three records of its example. *)
Lemma C5_on_foo_bar :
  lower_on_ascii ascii_lower
  /\ (forall x y, In x [baz; foo_bar; foobar] -> In y [baz; foo_bar; foobar] ->
        (same_group (dict_values (name_groups ascii_lower [baz; foo_bar; foobar])) x y <->
         remove_spaces (ascii_lower (name x)) = remove_spaces (ascii_lower (name y))))
  /\ (forall g, In g (duplicates ascii_lower [baz; foo_bar; foobar]) <->
                In g (dict_values (name_groups ascii_lower [baz; foo_bar; foobar]))
                /\ (1 < length g)%nat)
  /\ (forall k g, In (k, g) (name_groups ascii_lower [baz; foo_bar; foobar]) ->
                  g = filter (fun e => str_eqb (remove_spaces (ascii_lower (name e))) k)
                             [baz; foo_bar; foobar])
  /\ (sort_by_name [foo_bar; foobar; baz] = [baz; foo_bar; foobar]
      /\ duplicates ascii_lower (sort_by_name [foo_bar; foobar; baz])
         = [[foo_bar; foobar]]).
Proof.
  split.
  - exact ascii_lower_on_ascii.
  - exact (C5_duplicate_name_groups ascii_lower ascii_lower_on_ascii [baz; foo_bar; foobar]).
Defined.

(** C8 in a world without the input file. *)
Lemma C8_on_world_without :
  path_exists world_without extensions_json_path = false
  /\ exists msg out,
       body ascii_lower world_without []
       = (Raise (FileNotFoundError msg),
          [Stdout (utf8 "확장 프로그램 파일 읽는 중...");
           Stdout (utf8 "파일 경로: " ++ extensions_json_path);
           PathExists extensions_json_path])
       /\ occurs extensions_json_path msg
       /\ main ascii_lower world_without = Some out
       /\ exit_code out = 1%Z
       /\ (forall p, ~ In (JsonLoad p) (trace out))
       /\ occurs msg (error_msg world_without (FileNotFoundError msg))
       /\ trace out
          = [Stdout (utf8 "확장 프로그램 파일 읽는 중...");
             Stdout (utf8 "파일 경로: " ++ extensions_json_path);
             PathExists extensions_json_path;
             Stdout (error_msg world_without (FileNotFoundError msg));
             match write_error world_without error_path with
             | None => FileWrite error_path (error_msg world_without (FileNotFoundError msg))
             | Some _ =>
                 FileWriteFailed error_path (error_msg world_without (FileNotFoundError msg))
             end]
       /\ (write_error world_without error_path = None ->
           written error_path (trace out)
           = [error_msg world_without (FileNotFoundError msg)]).
Proof.
  split.
  - reflexivity.
  - exact (C8_missing_input_file ascii_lower world_without eq_refl).
Defined.

(** The same run on a disk that refuses the error file: the exit code is
    still 1 and no file is written. *)
Example missing_file_on_readonly_disk :
  option_map exit_code (main ascii_lower world_without_readonly) = Some 1%Z
  /\ option_map (fun o => written error_path (trace o))
                (main ascii_lower world_without_readonly) = Some [].
Proof. split; vm_compute; reflexivity. Qed.

(** * Further properties *)

(** ** How a run ends *)

Lemma path_tests :
  (str_eqb output_path output_path = true
   /\ str_eqb analysis_path output_path = false
   /\ str_eqb error_path output_path = false)
  /\ (str_eqb output_path analysis_path = false
      /\ str_eqb analysis_path analysis_path = true
      /\ str_eqb error_path analysis_path = false)
  /\ (str_eqb output_path error_path = false
      /\ str_eqb analysis_path error_path = false
      /\ str_eqb error_path error_path = true)
  /\ (str_eqb output_path extensions_json_path = false
      /\ str_eqb analysis_path extensions_json_path = false
      /\ str_eqb error_path extensions_json_path = false).
Proof. repeat split; vm_compute; reflexivity. Qed.

Ltac written_goal :=
  cbv [written]; cbn [trace flat_map app exit_code];
  destruct path_tests
    as ((?E & ?E & ?E) & (?E & ?E & ?E) & (?E & ?E & ?E) & (?E & ?E & ?E));
  repeat match goal with
         | E : str_eqb _ _ = _ |- _ => rewrite ?E; clear E
         end;
  cbn [app].

(** X1. A document that is not a mapping. When the file exists and parses to
    anything but an object, [data.items()] raises AttributeError naming the type
    of the document; the clock is never read, neither document is written, the
    handler prints the error text and the exit code is 1. *)
Theorem not_a_mapping_fails
    (lower : str -> str) (w : world) (data : json) (size : Z) :
  path_exists w extensions_json_path = true ->
  json_load w extensions_json_path = inr data ->
  getsize w extensions_json_path = inr size ->
  is_dict data = false ->
  exists out,
    main lower w = Some out
    /\ exit_code out = 1%Z
    /\ In (Stdout (error_msg w (AttributeError
                                  (utf8 "'" ++ type_name data
                                   ++ utf8 "' object has no attribute 'items'"))))
          (trace out)
    /\ ~ In ReadClock (trace out)
    /\ written output_path (trace out) = []
    /\ written analysis_path (trace out) = []
    /\ (write_error w error_path = None ->
        written error_path (trace out)
        = [error_msg w (AttributeError
                          (utf8 "'" ++ type_name data
                           ++ utf8 "' object has no attribute 'items'"))]).
Proof.
  intros Hex Hload Hsize Hd.
  cbv [main body bind print print_text ask raise ret items in_schema write_file handler].
  rewrite Hex, Hload, Hsize. cbn [negb].
  destruct data; try discriminate Hd; cbn [type_name].
  all: eexists; split; [reflexivity|].
  all: split; [reflexivity|].
  all: split; [destruct (write_error w error_path); cbn [trace app In]; tauto|].
  all: split;
    [destruct (write_error w error_path); cbn [trace app In];
     intros H; repeat (destruct H as [H|H]; [discriminate|]); exact H|].
  all: destruct (write_error w error_path) eqn:Hw; written_goal.
  all: repeat split; try reflexivity; intro; discriminate.
Qed.

(** X2. A file that cannot be opened or parsed. Whatever [open] or
    [json.load] raises goes to the handler: the size of the file is never
    asked for, neither document is written, the error text holds the text of
    the exception, and the exit code is 1. *)
Theorem load_failure_fails (lower : str -> str) (w : world) (e : exn) :
  path_exists w extensions_json_path = true ->
  json_load w extensions_json_path = inl e ->
  exists out,
    main lower w = Some out
    /\ exit_code out = 1%Z
    /\ occurs (exn_str e) (error_msg w e)
    /\ In (Stdout (error_msg w e)) (trace out)
    /\ ~ In (GetSize extensions_json_path) (trace out)
    /\ written output_path (trace out) = []
    /\ written analysis_path (trace out) = []
    /\ (write_error w error_path = None ->
        written error_path (trace out) = [error_msg w e]).
Proof.
  intros Hex Hload.
  cbv [main body bind print print_text ask raise ret items in_schema write_file handler].
  rewrite Hex, Hload. cbn [negb].
  eexists; split; [reflexivity|]. split; [reflexivity|].
  split.
  { unfold error_msg. exists (utf8 "오류 발생: "), (nl ++ format_exc w e).
    reflexivity. }
  split; [destruct (write_error w error_path); cbn [trace app In]; tauto|].
  split;
    [destruct (write_error w error_path); cbn [trace app In];
     intros H; repeat (destruct H as [H|H]; [discriminate|]); exact H|].
  destruct (write_error w error_path) eqn:Hw; written_goal.
  all: repeat split; try reflexivity; intro; discriminate.
Qed.

(** X3. A listing that cannot be written. When the write of the listing
    raises, the analysis is never attempted: the trace holds no write to the
    analysis path, finished or failed, and the exit code is 1. *)
Theorem listing_write_failure_stops_the_run
    (lower : str -> str) (w : world) (pairs : list (str * json)) (size : Z)
    (exts : list ext) (e : exn) :
  path_exists w extensions_json_path = true ->
  json_load w extensions_json_path = inr (JDict pairs) ->
  getsize w extensions_json_path = inr size ->
  extensions pairs = Some exts ->
  write_error w output_path = Some e ->
  exists out,
    main lower w = Some out
    /\ exit_code out = 1%Z
    /\ In (FileWriteFailed output_path (output lower (clock w) exts)) (trace out)
    /\ In (Stdout (error_msg w e)) (trace out)
    /\ (forall c, ~ In (FileWrite analysis_path c) (trace out))
    /\ (forall c, ~ In (FileWriteFailed analysis_path c) (trace out))
    /\ written output_path (trace out) = [].
Proof.
  intros Hex Hload Hsize Hexts Hw. unfold main.
  rewrite (body_documents lower w pairs size exts Hex Hload Hsize Hexts), Hw.
  eexists; split; [reflexivity|]. unfold handler. cbn [exit_code trace].
  split; [reflexivity|].
  assert (Hne : forall c, FileWriteFailed output_path (output lower (clock w) exts)
                          <> FileWriteFailed analysis_path c).
  { intros c H.
    apply (f_equal (fun ev => match ev with
                              | FileWriteFailed p _ => str_eqb p analysis_path
                              | _ => false
                              end)) in H.
    vm_compute in H. discriminate H. }
  destruct (write_error w error_path); cbn [app In].
  all: split; [tauto|]. all: split; [tauto|].
  all: split;
    [intros c H; repeat (destruct H as [H|H]; [discriminate|]); exact H|].
  all: split;
    [intros c H; repeat (destruct H as [H|H];
                         [first [discriminate | now apply Hne in H]|]); exact H|].
  all: written_goal; reflexivity.
Qed.

(** X4. An analysis that cannot be written. When the listing is written and
    the write of the analysis raises, the run ends with exit code 1 and the
    listing stays written: a failed run can leave one of the two documents
    behind. *)
Theorem analysis_write_failure_leaves_the_listing
    (lower : str -> str) (w : world) (pairs : list (str * json)) (size : Z)
    (exts : list ext) (e : exn) :
  path_exists w extensions_json_path = true ->
  json_load w extensions_json_path = inr (JDict pairs) ->
  getsize w extensions_json_path = inr size ->
  extensions pairs = Some exts ->
  write_error w output_path = None ->
  write_error w analysis_path = Some e ->
  exists out,
    main lower w = Some out
    /\ exit_code out = 1%Z
    /\ written output_path (trace out) = [output lower (clock w) exts]
    /\ written analysis_path (trace out) = []
    /\ In (FileWriteFailed analysis_path (analysis lower exts)) (trace out)
    /\ In (Stdout (error_msg w e)) (trace out).
Proof.
  intros Hex Hload Hsize Hexts Hw1 Hw2. unfold main.
  rewrite (body_documents lower w pairs size exts Hex Hload Hsize Hexts), Hw1, Hw2.
  eexists; split; [reflexivity|]. unfold handler. cbn [exit_code trace].
  split; [reflexivity|].
  destruct (write_error w error_path).
  all: split; [written_goal; reflexivity|].
  all: split; [written_goal; reflexivity|].
  all: cbn [app In]; tauto.
Qed.

(** X5. How any run ends. The exit code is 0 or 1. A run that ends with 0 has
    written the analysis; once the analysis is written, the run ends with 0
    exactly when printing that text goes through, so a run can write both
    documents and still end with 1. The analysis is never written without the
    listing before it; a run that ends with 0 leaves no error file, one that
    ends with 1 writes the error file whenever that write goes through; and no
    run writes to the input file. *)
Theorem run_outcomes (lower : str -> str) (w : world) (out : outcome) :
  main lower w = Some out ->
  (exit_code out = 0%Z \/ exit_code out = 1%Z)
  /\ (exit_code out = 0%Z -> written analysis_path (trace out) <> [])
  /\ (forall c, In c (written analysis_path (trace out)) ->
                (exit_code out = 0%Z <-> stdout_error w c = None))
  /\ (written analysis_path (trace out) <> [] ->
      written output_path (trace out) <> [])
  /\ (exit_code out = 0%Z -> written error_path (trace out) = [])
  /\ (exit_code out = 1%Z -> write_error w error_path = None ->
      exists c, written error_path (trace out) = [c])
  /\ written extensions_json_path (trace out) = [].
Proof.
  intro Hm. run_cases Hm.
  all: try discriminate Hm.
  all: inversion Hm; subst out; clear Hm.
  all: written_goal.
  all: split; [first [now left | now right]|].
  all: split; [intros; first [discriminate | congruence]|].
  all: split;
    [intros c Hc; cbn [In] in Hc;
     first [contradiction
           | destruct Hc as [<-|[]]; split; intro; first [congruence | reflexivity]]|].
  all: repeat split; intros; try discriminate; try reflexivity; try congruence; eauto.
Qed.

(** X20. A text standard output cannot take. When both documents are written
    and printing the analysis raises (a name with a character the console
    cannot show), the exception goes to the handler: both documents stay
    written, the handler prints and saves the error text, and the exit code
    is 1. *)
Theorem print_failure_after_the_documents
    (lower : str -> str) (w : world) (pairs : list (str * json)) (size : Z)
    (exts : list ext) (e : exn) :
  path_exists w extensions_json_path = true ->
  json_load w extensions_json_path = inr (JDict pairs) ->
  getsize w extensions_json_path = inr size ->
  extensions pairs = Some exts ->
  write_error w output_path = None ->
  write_error w analysis_path = None ->
  stdout_error w (analysis lower exts) = Some e ->
  exists out,
    main lower w = Some out
    /\ exit_code out = 1%Z
    /\ written output_path (trace out) = [output lower (clock w) exts]
    /\ written analysis_path (trace out) = [analysis lower exts]
    /\ In (StdoutFailed (analysis lower exts)) (trace out)
    /\ In (Stdout (error_msg w e)) (trace out)
    /\ (write_error w error_path = None ->
        written error_path (trace out) = [error_msg w e]).
Proof.
  intros Hex Hload Hsize Hexts Hw1 Hw2 Hp. unfold main.
  rewrite (body_documents lower w pairs size exts Hex Hload Hsize Hexts), Hw1, Hw2, Hp.
  eexists; split; [reflexivity|]. unfold handler. cbn [exit_code trace].
  split; [reflexivity|].
  destruct (write_error w error_path) eqn:Hw.
  all: split; [written_goal; reflexivity|].
  all: split; [written_goal; reflexivity|].
  all: split; [cbn [app In]; tauto|].
  all: split; [cbn [app In]; tauto|].
  all: intro H; first [discriminate H | written_goal; reflexivity].
Qed.

(** X17. What a run that ends with 0 has done. The input file existed and
    held a mapping, both writes went through, exactly the listing and the
    analysis computed from the sorted records of that mapping were written,
    once each, and the error file was not touched. *)
Theorem successful_run (lower : str -> str) (w : world) (out : outcome) :
  main lower w = Some out ->
  exit_code out = 0%Z ->
  exists pairs exts,
    path_exists w extensions_json_path = true
    /\ json_load w extensions_json_path = inr (JDict pairs)
    /\ extensions pairs = Some exts
    /\ write_error w output_path = None
    /\ write_error w analysis_path = None
    /\ written output_path (trace out) = [output lower (clock w) exts]
    /\ written analysis_path (trace out) = [analysis lower exts]
    /\ written error_path (trace out) = [].
Proof.
  intros Hm Hcode. run_cases Hm.
  all: try discriminate Hm.
  all: inversion Hm; subst out; clear Hm.
  all: try discriminate Hcode.
  all: written_goal.
  all: do 2 eexists; repeat split; try eassumption; try reflexivity.
  all: now apply negb_false_iff.
Qed.

(** ** The order of the groups *)

Lemma str_eqb_comm (s t : str) : str_eqb s t = str_eqb t s.
Proof.
  destruct (str_eqb t s) eqn:E.
  - apply str_eqb_eq in E. subst. apply str_eqb_refl.
  - apply str_eqb_neq. apply str_eqb_neq in E. congruence.
Qed.

Lemma filter_twice {A : Type} (p q : A -> bool) (l : list A) :
  filter p (filter q l) = filter (fun x => q x && p x) l.
Proof.
  induction l as [|x l IH]; [reflexivity|]. simpl.
  destruct (q x); simpl; [destruct (p x)|]; now rewrite IH.
Qed.

Lemma key_in_snoc (ks : list str) (k x : str) :
  key_in (ks ++ [k]) x = key_in ks x || str_eqb x k.
Proof. unfold key_in. rewrite existsb_app. simpl. now rewrite orb_false_r. Qed.

Lemma join_group_keys (k : str) (e : ext) (groups : dict (list ext)) :
  map fst (join_group k e groups)
  = if key_in (map fst groups) k then map fst groups else map fst groups ++ [k].
Proof.
  induction groups as [|[k' g] r IH]; [reflexivity|].
  simpl. rewrite (str_eqb_comm k k').
  destruct (str_eqb k' k); simpl; [reflexivity|].
  rewrite IH. now destruct (key_in (map fst r) k).
Qed.

Lemma name_groups_keys_from (lower : str -> str) (exts : list ext)
      (groups : dict (list ext)) :
  map fst (fold_left (add_to_groups lower) exts groups)
  = map fst groups
    ++ filter (fun k => negb (key_in (map fst groups) k))
              (first_occurrences (map (name_key lower) exts)).
Proof.
  revert groups; induction exts as [|e exts IH]; intro groups.
  - simpl. now rewrite app_nil_r.
  - cbn [fold_left map first_occurrences filter].
    rewrite IH, add_to_groups_join, join_group_keys.
    destruct (key_in (map fst groups) (name_key lower e)) eqn:Hk; cbn [negb].
    + f_equal. rewrite filter_twice. apply filter_ext. intro x.
      destruct (str_eqb x (name_key lower e)) eqn:Hx; [|reflexivity].
      apply str_eqb_eq in Hx. subst x. now rewrite Hk.
    + rewrite <- app_assoc. cbn [app]. do 2 f_equal.
      rewrite filter_twice. apply filter_ext. intro x.
      rewrite key_in_snoc, negb_orb. apply andb_comm.
Qed.

Lemma filter_all (ks : list str) :
  filter (fun k => negb (key_in [] k)) ks = ks.
Proof.
  rewrite (filter_ext _ (fun _ => true)) by reflexivity.
  induction ks as [|k ks IH]; [reflexivity | simpl; now f_equal].
Qed.

(** X6. The name groups stand in the order in which their keys first occur in
    the record list: a group opened earlier is never overtaken by one opened
    later. *)
Theorem groups_in_order_of_first_occurrence (lower : str -> str) (exts : list ext) :
  map fst (name_groups lower exts) = first_occurrences (map (name_key lower) exts).
Proof.
  unfold name_groups. rewrite name_groups_keys_from. cbn [map app].
  apply filter_all.
Qed.

(** ** The tally in closed form *)

Lemma sum_sizes_less_one (gs : list (list ext)) :
  sum_Z (map (fun g => len g - 1)%Z gs) = (len (concat gs) - len gs)%Z.
Proof.
  induction gs as [|g gs IH]; [reflexivity|].
  change (sum_Z (map (fun g => len g - 1)%Z (g :: gs)))
    with ((len g - 1) + sum_Z (map (fun g => len g - 1)%Z gs))%Z.
  rewrite IH. unfold len. cbn [concat length]. rewrite length_app. lia.
Qed.

Lemma sum_over_duplicates (gs : list (list ext)) :
  (forall g, In g gs -> g <> []) ->
  sum_Z (map (fun g => len g - 1)%Z (filter (fun g => (1 <? len g)%Z) gs))
  = sum_Z (map (fun g => len g - 1)%Z gs).
Proof.
  induction gs as [|g gs IH]; intro Hne; [reflexivity|].
  assert (IH' := IH (fun g' Hg' => Hne g' (or_intror Hg'))).
  change (sum_Z (map (fun g => len g - 1)%Z (g :: gs)))
    with ((len g - 1) + sum_Z (map (fun g => len g - 1)%Z gs))%Z.
  cbn [filter]. destruct (Z.ltb_spec 1 (len g)) as [Hg|Hg].
  - change (sum_Z (map (fun g => len g - 1)%Z
                       (g :: filter (fun g => (1 <? len g)%Z) gs)))
      with ((len g - 1)
            + sum_Z (map (fun g => len g - 1)%Z
                         (filter (fun g => (1 <? len g)%Z) gs)))%Z.
    now rewrite IH'.
  - rewrite IH'. unfold len in *. destruct g as [|x [|y g]].
    + now destruct (Hne [] (or_introl eq_refl)).
    + cbn [length]. lia.
    + cbn [length] in Hg. lia.
Qed.

Lemma count_not_empty {A : Type} (gs : list (list A)) :
  (forall g, In g gs -> g <> []) -> (length gs <= length (concat gs))%nat.
Proof.
  induction gs as [|g gs IH]; intro H; [apply le_n|].
  cbn [concat length]. rewrite length_app.
  assert (g <> []) by (apply H; now left).
  assert (length gs <= length (concat gs))%nat
    by (apply IH; intros g' Hg'; apply H; now right).
  destruct g; [contradiction | cbn [length]; lia].
Qed.

Lemma groups_not_empty (lower : str -> str) (exts : list ext) (g : list ext) :
  In g (dict_values (name_groups lower exts)) -> g <> [].
Proof.
  unfold dict_values. rewrite in_map_iff. intros [[k g'] [<- Hin]].
  now apply (name_groups_grouped lower exts) in Hin.
Qed.

Lemma groups_cover (lower : str -> str) (exts : list ext) :
  len (concat (dict_values (name_groups lower exts))) = len exts.
Proof.
  unfold len. f_equal. apply Permutation_length.
  now apply (name_groups_grouped lower exts).
Qed.

Lemma count_of_name_groups (lower : str -> str) (exts : list ext) :
  len (first_occurrences (map (name_key lower) exts))
  = len (dict_values (name_groups lower exts)).
Proof.
  unfold len, dict_values. f_equal. rewrite length_map.
  rewrite <- (length_map fst (name_groups lower exts)). f_equal.
  unfold name_groups. rewrite name_groups_keys_from. cbn [map app].
  symmetry. apply filter_all.
Qed.

(** X7. The tally in closed form. The removal tally is the number of disabled
    records plus the number of records minus the number of distinct name keys;
    so the figure reported as kept is the number of distinct name keys minus
    the number of disabled records, and it is negative as soon as more records
    are disabled than there are distinct names. The tally itself is never
    negative. *)
Theorem tally_by_distinct_names (lower : str -> str) (exts : list ext) :
  recommended_removals lower exts
  = (len (disabled_exts exts) + len exts
     - len (first_occurrences (map (name_key lower) exts)))%Z
  /\ kept lower exts
     = (len (first_occurrences (map (name_key lower) exts))
        - len (disabled_exts exts))%Z
  /\ (0 <= recommended_removals lower exts)%Z
  /\ (len (first_occurrences (map (name_key lower) exts)) <= len exts)%Z.
Proof.
  assert (Hcount := count_of_name_groups lower exts).
  assert (Htally : recommended_removals lower exts
                   = (len (disabled_exts exts) + len exts
                      - len (dict_values (name_groups lower exts)))%Z).
  { rewrite recommended_removals_sum. unfold duplicates.
    rewrite sum_over_duplicates by apply groups_not_empty.
    rewrite sum_sizes_less_one, groups_cover. lia. }
  assert (Hle : (len (dict_values (name_groups lower exts)) <= len exts)%Z).
  { rewrite <- (groups_cover lower exts). unfold len. apply inj_le.
    apply count_not_empty, groups_not_empty. }
  rewrite Hcount. unfold kept. rewrite Htally.
  repeat split; try lia.
  unfold len at 1. lia.
Qed.

Lemma sum_at_least_count (gs : list (list ext)) :
  (forall g, In g gs -> (1 <? len g)%Z = true) ->
  (len gs <= sum_Z (map (fun g => len g - 1)%Z gs))%Z.
Proof.
  induction gs as [|g gs IH]; intro H; [apply Z.le_refl|].
  change (sum_Z (map (fun g => len g - 1)%Z (g :: gs)))
    with ((len g - 1) + sum_Z (map (fun g => len g - 1)%Z gs))%Z.
  assert (Hg := H g (or_introl eq_refl)). apply Z.ltb_lt in Hg.
  assert (IH' := IH (fun g' Hg' => H g' (or_intror Hg'))).
  unfold len in *. cbn [length]. lia.
Qed.

(** X8. Nothing to remove. The tally is 0 exactly when no record is disabled
    and no two records share a name key, and it is positive otherwise. In the
    first case the summary is its heading, the line that the extensions are
    well managed, and the closing line with everything kept; in the second it
    is its heading, the line on the disabled records when there are any, the
    advice to remove as many extensions as the tally says, and the closing
    line. *)
Theorem tally_zero_iff_clean (lower : str -> str) (exts : list ext) :
  (recommended_removals lower exts = 0%Z <->
   disabled_exts exts = [] /\ duplicates lower exts = [])
  /\ ((0 <? recommended_removals lower exts)%Z = false <->
      disabled_exts exts = [] /\ duplicates lower exts = [])
  /\ (disabled_exts exts = [] /\ duplicates lower exts = [] ->
      summary lower exts
      = nl ++ rule ++ utf8 "정리 권장 사항" ++ nl ++ rule
        ++ utf8 "- 현재 설치된 확장 프로그램이 적절하게 관리되고 있습니다." ++ nl
        ++ nl ++ utf8 "현재 총 " ++ str_of_int (len exts) ++ utf8 "개 중 "
        ++ str_of_int (len exts) ++ utf8 "개 유지 권장" ++ nl)
  /\ (~ (disabled_exts exts = [] /\ duplicates lower exts = []) ->
      (0 < recommended_removals lower exts)%Z
      /\ summary lower exts
         = nl ++ rule ++ utf8 "정리 권장 사항" ++ nl ++ rule
           ++ match disabled_exts exts with
              | _ :: _ =>
                  utf8 "- 비활성화된 확장 프로그램 "
                  ++ str_of_int (len (disabled_exts exts))
                  ++ utf8 "개 제거 권장" ++ nl
              | [] => []
              end
           ++ utf8 "- 총 " ++ str_of_int (recommended_removals lower exts)
           ++ utf8 "개 정도의 확장 프로그램 제거를 고려해보세요." ++ nl
           ++ nl ++ utf8 "현재 총 " ++ str_of_int (len exts) ++ utf8 "개 중 "
           ++ str_of_int (len exts - recommended_removals lower exts)
           ++ utf8 "개 유지 권장" ++ nl).
Proof.
  assert (Hsum := recommended_removals_sum lower exts).
  assert (Hlow := sum_at_least_count (duplicates lower exts)
                    (duplicates_large lower exts)).
  assert (Hnonneg : (0 <= recommended_removals lower exts)%Z)
    by (unfold len in *; lia).
  assert (Hiff : recommended_removals lower exts = 0%Z <->
                 disabled_exts exts = [] /\ duplicates lower exts = []).
  { split.
    - intro H0. rewrite H0 in Hsum. unfold len in *.
      destruct (disabled_exts exts), (duplicates lower exts);
        cbn [length] in *; try lia. now split.
    - intros [Hd Hg]. rewrite Hsum, Hd, Hg. reflexivity. }
  split; [exact Hiff|].
  split; [rewrite <- Hiff, Z.ltb_ge; lia|].
  split.
  - intro Hclean. assert (H0 := proj2 Hiff Hclean).
    unfold summary, kept. rewrite H0, (proj1 Hclean), Z.sub_0_r. reflexivity.
  - intro Hdirty.
    assert (Hpos : (0 < recommended_removals lower exts)%Z).
    { destruct (Z.eq_dec (recommended_removals lower exts) 0) as [H0|H0]; [|lia].
      now destruct (Hdirty (proj1 Hiff H0)). }
    split; [exact Hpos|].
    unfold summary, kept. rewrite (proj2 (Z.ltb_lt _ _) Hpos).
    destruct (disabled_exts exts); rewrite <- ?app_assoc; reflexivity.
Qed.

(** X9. How many duplicate groups there can be. Every duplicate group has at
    least two members and no record is in two groups, so twice the number of
    duplicate groups is at most the number of records. *)
Theorem duplicate_groups_at_most_half (lower : str -> str) (exts : list ext) :
  (2 * len (duplicates lower exts) <= len exts)%Z
  /\ (forall g, In g (duplicates lower exts) -> (2 <= len g)%Z).
Proof.
  split.
  - assert (Hlow := sum_at_least_count (duplicates lower exts)
                      (duplicates_large lower exts)).
    assert (Hall : sum_Z (map (fun g => len g - 1)%Z (duplicates lower exts))
                   = (len exts - len (dict_values (name_groups lower exts)))%Z).
    { unfold duplicates. rewrite sum_over_duplicates by apply groups_not_empty.
      now rewrite sum_sizes_less_one, groups_cover. }
    assert (Hsub : (len (duplicates lower exts)
                    <= len (dict_values (name_groups lower exts)))%Z)
      by apply filter_len_le.
    lia.
  - intros g Hg. apply duplicates_large in Hg. apply Z.ltb_lt in Hg. lia.
Qed.

(** ** Identifiers *)

Lemma record_ids (l : list (str * json)) (built : list ext) :
  Forall2 record_of l built -> map id built = map fst l.
Proof.
  induction 1 as [|kv e l built (d & _ & Hid & _) _ IH]; [reflexivity|].
  simpl. now rewrite Hid, IH.
Qed.

Lemma object_keys_distinct (items : list (str * json)) :
  NoDup (map fst items) -> NoDup (map fst (filter is_object_entry items)).
Proof.
  intro Hnd. induction items as [|kv rest IH]; [constructor|].
  cbn [map] in Hnd. apply NoDup_cons_iff in Hnd as [Hfresh Hrest].
  cbn [filter]. destruct (is_object_entry kv); [|now apply IH].
  cbn [map]. apply NoDup_cons_iff. split; [|now apply IH].
  intro Hin. apply Hfresh.
  apply in_map_iff in Hin as (other & Hkey & Hin).
  apply filter_In in Hin as [Hin _].
  rewrite <- Hkey. now apply in_map.
Qed.

(** X10. Identifiers stay unique. The keys of a mapping are distinct, and so
    are the ids of the records built from it: no two rows of the listing carry
    the same id, and the ids are the keys of the object entries. *)
Theorem record_ids_are_distinct (items : list (str * json)) (exts : list ext) :
  NoDup (map fst items) ->
  extensions items = Some exts ->
  NoDup (map id exts)
  /\ Permutation (map id exts) (map fst (filter is_object_entry items)).
Proof.
  intros Hnd Hext. unfold extensions in Hext.
  destruct (build items) as [built|] eqn:Hb; [|discriminate].
  injection Hext as <-.
  assert (Hids := record_ids _ _ (build_spec items built Hb)).
  assert (Hperm : Permutation (map id (sort_by_name built))
                              (map fst (filter is_object_entry items))).
  { rewrite <- Hids. apply Permutation_map. symmetry. apply sort_by_name_perm. }
  split; [|exact Hperm].
  apply (Permutation_NoDup (Permutation_sym Hperm)).
  now apply object_keys_distinct.
Qed.

(** ** The table *)

Lemma status_length (e : ext) : (length (status e) <= 10)%nat.
Proof. unfold status. destruct (truthy (enabled e)); vm_compute; lia. Qed.

(** X11. The width of a row. The id, name and status cells are always 50, 35
    and 10 wide; the number, publisher and version cells are padded to 6, 20
    and 15 but never cut. So a row is at least 142 characters with its line
    end, and the publisher and the version stand in it in full however long
    they are. *)
Theorem row_width (idx : Z) (e : ext) :
  length (table_row (idx, e))
  = (Nat.max 6 (length (str_of_int idx)) + Nat.max 20 (length (publisher e))
     + Nat.max 15 (length (version e)) + 101)%nat
  /\ (142 <= length (table_row (idx, e)))%nat
  /\ occurs (publisher e) (table_row (idx, e))
  /\ occurs (version e) (table_row (idx, e))
  /\ ends_with nl (table_row (idx, e)) = true.
Proof.
  assert (Hid : length (ljust 50 (ext_id e)) = 50%nat)
    by apply (cut_spec 50 47 (id e) eq_refl).
  assert (Hname : length (ljust 35 (ext_name e)) = 35%nat)
    by apply (cut_spec 35 32 (name e) eq_refl).
  assert (Hst : length (ljust 10 (status e)) = 10%nat).
  { rewrite ljust_length. assert (H := status_length e). lia. }
  assert (Hlen : length (table_row (idx, e))
                 = (Nat.max 6 (length (str_of_int idx))
                    + Nat.max 20 (length (publisher e))
                    + Nat.max 15 (length (version e)) + 101)%nat).
  { unfold table_row. rewrite !length_app, Hid, Hname, Hst, !ljust_length.
    cbn [length nl]. lia. }
  split; [exact Hlen|]. split; [lia|].
  unfold table_row, ljust. split; [|split].
  - exists ((str_of_int idx ++ repeat space (6 - length (str_of_int idx))) ++ [space]
            ++ (ext_id e ++ repeat space (50 - length (ext_id e))) ++ [space]
            ++ (ext_name e ++ repeat space (35 - length (ext_name e))) ++ [space]).
    eexists. rewrite <- !app_assoc. reflexivity.
  - exists ((str_of_int idx ++ repeat space (6 - length (str_of_int idx))) ++ [space]
            ++ (ext_id e ++ repeat space (50 - length (ext_id e))) ++ [space]
            ++ (ext_name e ++ repeat space (35 - length (ext_name e))) ++ [space]
            ++ (publisher e ++ repeat space (20 - length (publisher e))) ++ [space]).
    eexists. rewrite <- !app_assoc. reflexivity.
  - apply ends_with_suffix. eexists. rewrite !app_assoc. reflexivity.
Qed.

Lemma ext_id_cases (e : ext) :
  ((50 < length (id e))%nat -> ext_id e = firstn 47 (id e) ++ utf8 "...")
  /\ ((length (id e) <= 50)%nat -> ext_id e = id e).
Proof.
  assert (H : ((50 < length (id e))%nat ->
               ext_id e = firstn 47 (id e) ++ utf8 "..." /\ length (ext_id e) = 50%nat
               /\ ends_with (utf8 "...") (ext_id e) = true)
              /\ ((length (id e) <= 50)%nat -> ext_id e = id e))
    by (split; apply (cut_spec 50 47 (id e) eq_refl)).
  split; [intro Hl; now apply H | apply H].
Qed.

(** X12. What cutting loses. Two ids longer than 50 characters that agree on
    their first 47 are rendered alike, so the listing cannot tell them apart;
    two ids of at most 50 characters are rendered alike only if they are the
    same id. *)
Theorem cut_ids_collide (x y : ext) :
  ((50 < length (id x))%nat -> (50 < length (id y))%nat ->
   firstn 47 (id x) = firstn 47 (id y) -> ext_id x = ext_id y)
  /\ ((length (id x) <= 50)%nat -> (length (id y) <= 50)%nat ->
      ext_id x = ext_id y -> id x = id y)
  /\ firstn 47 (ext_id x) = firstn 47 (id x).
Proof.
  split; [|split].
  - intros Hx Hy H.
    rewrite (proj1 (ext_id_cases x) Hx), (proj1 (ext_id_cases y) Hy). now rewrite H.
  - intros Hx Hy H.
    now rewrite <- (proj2 (ext_id_cases x) Hx), <- (proj2 (ext_id_cases y) Hy).
  - destruct (Nat.lt_ge_cases 50 (length (id x))) as [Hx|Hx].
    + rewrite (proj1 (ext_id_cases x) Hx).
      rewrite firstn_app, firstn_firstn, length_firstn.
      replace (47 - Nat.min 47 (length (id x)))%nat with 0%nat by lia.
      replace (Nat.min 47 47) with 47%nat by lia.
      cbn [firstn]. apply app_nil_r.
    + now rewrite (proj2 (ext_id_cases x) Hx).
Qed.

(** ** Sorting *)

Lemma named_perm (n : str) (l1 l2 : list ext) :
  Permutation l1 l2 -> Permutation (named n l1) (named n l2).
Proof.
  unfold named. induction 1 as [|x l1 l2 _ IH|x y l|l1 l2 l3 _ IH1 _ IH2]; simpl.
  - constructor.
  - destruct (str_eqb (name x) n); [now constructor | assumption].
  - destruct (str_eqb (name x) n), (str_eqb (name y) n);
      try reflexivity. apply perm_swap.
  - etransitivity; eassumption.
Qed.

Lemma named_at_most_one (n : str) (l : list ext) :
  NoDup (map name l) -> (length (named n l) <= 1)%nat.
Proof.
  unfold named. induction l as [|x l IH]; intro H; [simpl; lia|].
  simpl in H. inversion H as [|? ? Hx Hl]; subst. simpl.
  destruct (str_eqb (name x) n) eqn:E; [|now apply IH].
  apply str_eqb_eq in E. subst n.
  rewrite filter_none; [simpl; lia|].
  intros y Hy. apply str_eqb_neq. intro Hn. apply Hx.
  rewrite <- Hn. now apply in_map.
Qed.

(** X13. The order of the mapping matters only among equal names. Sorting a
    list that is already in name order changes nothing, so sorting twice is
    sorting once; and two lists that hold the same records, no two of them
    with the same name, sort to the same list whatever order they came in. *)
Theorem sort_forgets_the_order (l1 l2 : list ext) :
  (StronglySorted name_le l1 -> sort_by_name l1 = l1)
  /\ sort_by_name (sort_by_name l1) = sort_by_name l1
  /\ (Permutation l1 l2 -> NoDup (map name l1) ->
      sort_by_name l1 = sort_by_name l2).
Proof.
  split; [|split].
  - intro Hs. apply stable_sort_unique; [apply sort_by_name_sorted | exact Hs |].
    intro n. apply sort_by_name_stable.
  - apply stable_sort_unique; try apply sort_by_name_sorted.
    intro n. apply sort_by_name_stable.
  - intros Hperm Hnd.
    apply stable_sort_unique; try apply sort_by_name_sorted.
    intro n. rewrite !sort_by_name_stable.
    assert (Hp := named_perm n l1 l2 Hperm).
    assert (H1 := named_at_most_one n l1 Hnd).
    destruct (named n l1) as [|x [|y r]].
    + apply Permutation_nil in Hp. now rewrite Hp.
    + apply Permutation_length_1_inv in Hp. now rewrite Hp.
    + simpl in H1. lia.
Qed.

Lemma sorted_filter (p : ext -> bool) (l : list ext) :
  StronglySorted name_le l -> StronglySorted name_le (filter p l).
Proof.
  induction 1 as [|x l Hl IH Hx]; simpl; [constructor|].
  destruct (p x); [|assumption].
  constructor; [assumption|].
  rewrite Forall_forall in *. intros y Hy. apply Hx.
  now apply filter_In in Hy.
Qed.

(** X14. Every sub-listing is in name order. The disabled records, the five
    category lists and the members of every name group are taken from the
    sorted record list without reordering, so each of them is itself
    non-decreasing by name. *)
Theorem sublistings_in_name_order (lower : str -> str) (built : list ext) :
  StronglySorted name_le (disabled_exts (sort_by_name built))
  /\ StronglySorted name_le (language_exts lower (sort_by_name built))
  /\ StronglySorted name_le (theme_exts lower (sort_by_name built))
  /\ StronglySorted name_le (git_exts lower (sort_by_name built))
  /\ StronglySorted name_le (debug_exts lower (sort_by_name built))
  /\ StronglySorted name_le (format_exts lower (sort_by_name built))
  /\ (forall g, In g (dict_values (name_groups lower (sort_by_name built))) ->
                StronglySorted name_le g).
Proof.
  assert (Hs := sort_by_name_sorted built).
  repeat split; try (apply sorted_filter; exact Hs).
  intros g Hg. apply group_of_key in Hg as (k & _ & ->).
  apply sorted_filter; exact Hs.
Qed.

(** ** The enabled flag *)

Lemma make_ext_enabled (key : str) (d : dict json) (e : ext) :
  make_ext key d = Some e -> enabled e = dict_get d (utf8 "enabled") (JBool true).
Proof.
  unfold make_ext.
  destruct (get_text d "name"); [|discriminate].
  destruct (get_text d "publisher"); [|discriminate].
  destruct (get_text d "version"); [|discriminate].
  intro H. injection H as <-. reflexivity.
Qed.

(** X15. The enabled flag is tested for truth, not compared with true. A
    record is listed as disabled exactly when it is among the disabled
    records of the analysis. An entry without the flag is enabled; so is one
    whose flag is any non-empty string, the string "false" included; one whose
    flag is null or the number 0 is disabled. *)
Theorem enabled_is_tested_for_truth (key : str) (d : dict json) (e : ext) :
  make_ext key d = Some e ->
  (disabled_exts [e] = [e] <-> status e = utf8 "비활성화")
  /\ (disabled_exts [e] = [] <-> status e = utf8 "활성화")
  /\ (dict_lookup (utf8 "enabled") d = None -> status e = utf8 "활성화")
  /\ (forall s, dict_lookup (utf8 "enabled") d = Some (JStr s) -> s <> [] ->
                status e = utf8 "활성화")
  /\ (dict_lookup (utf8 "enabled") d = Some JNull -> status e = utf8 "비활성화")
  /\ (dict_lookup (utf8 "enabled") d = Some (JInt 0) -> status e = utf8 "비활성화").
Proof.
  intro He. apply make_ext_enabled in He.
  unfold disabled_exts, status, dict_get in *. cbn [filter].
  split; [|split; [|split; [|split; [|split]]]].
  - destruct (truthy (enabled e)); cbn [negb]; split; intro H;
      try reflexivity; try discriminate H; vm_compute in H; discriminate H.
  - destruct (truthy (enabled e)); cbn [negb]; split; intro H;
      try reflexivity; try discriminate H; vm_compute in H; discriminate H.
  - intro Hl. rewrite Hl in He. now rewrite He.
  - intros s Hl Hs. rewrite Hl in He. rewrite He. cbn [truthy].
    destruct s; [contradiction | reflexivity].
  - intro Hl. rewrite Hl in He. now rewrite He.
  - intro Hl. rewrite Hl in He. now rewrite He.
Qed.

(** ** A mapping without objects *)

Lemma build_from_no_objects (items : list (str * json)) (acc : list ext) :
  forallb (fun kv => negb (is_object_entry kv)) items = true ->
  build_from acc items = Some acc.
Proof.
  induction items as [|[key value] rest IH]; intro H; [reflexivity|].
  simpl in H. apply andb_true_iff in H as [Hv Hrest].
  unfold is_object_entry in Hv. simpl in Hv.
  destruct value; try discriminate Hv; simpl; now apply IH.
Qed.

(** X16. A mapping without objects. When no value of the mapping is an object
    (the empty mapping included) nothing is rejected: the record list is
    empty, the table has no row, all six counts and the tally are 0, and the
    analysis reports that every extension is enabled and that there are no
    duplicates. *)
Theorem no_objects_no_records (lower : str -> str) (items : list (str * json)) :
  forallb (fun kv => negb (is_object_entry kv)) items = true ->
  extensions items = Some []
  /\ table_rows [] = []
  /\ other_count lower [] = 0%Z
  /\ recommended_removals lower [] = 0%Z
  /\ kept lower [] = 0%Z
  /\ occurs (utf8 "   → 모든 확장 프로그램이 활성화되어 있습니다.") (analysis lower [])
  /\ occurs (utf8 "   → 중복된 확장 프로그램이 없습니다.") (analysis lower [])
  /\ occurs (utf8 "- 현재 설치된 확장 프로그램이 적절하게 관리되고 있습니다.")
            (analysis lower []).
Proof.
  intro H. split.
  - unfold extensions, build. now rewrite (build_from_no_objects items [] H).
  - repeat split; apply contains_occurs; vm_compute; reflexivity.
Qed.

(** ** The residual, record by record *)

Lemma other_count_cons (lower : str -> str) (e : ext) (exts : list ext) :
  other_count lower (e :: exts)
  = (other_count lower exts + (1 - category_count lower e))%Z.
Proof.
  unfold other_count, category_count, language_exts, theme_exts, git_exts,
    debug_exts, format_exts, len.
  cbn [filter].
  destruct (is_language lower e), (is_theme lower e), (is_git lower e),
    (is_debug lower e), (is_format lower e); cbn [length Z.b2z]; lia.
Qed.

Lemma category_count_range (lower : str -> str) (e : ext) :
  (0 <= category_count lower e <= 5)%Z.
Proof.
  unfold category_count.
  destruct (is_language lower e), (is_theme lower e), (is_git lower e),
    (is_debug lower e), (is_format lower e); cbn [Z.b2z]; lia.
Qed.

(** X18. The residual, record by record. Each record adds to the residual 1
    minus the number of categories it is in: 1 when it is in none, 0 when it
    is in one, a negative amount when it is in several. So the residual is the
    number of records in no category exactly when it is not pulled down by a
    record in two or more, and it is never more than that number. *)
Theorem residual_by_record (lower : str -> str) (exts : list ext) :
  other_count lower exts = sum_Z (map (fun e => 1 - category_count lower e)%Z exts)
  /\ (other_count lower exts
      <= len (filter (fun e => (category_count lower e =? 0)%Z) exts))%Z
  /\ ((forall e, In e exts -> (category_count lower e <= 1)%Z) ->
      other_count lower exts
      = len (filter (fun e => (category_count lower e =? 0)%Z) exts))
  /\ (- 4 * len exts <= other_count lower exts <= len exts)%Z.
Proof.
  induction exts as [|e exts (IH1 & IH2 & IH3 & IH4)].
  - repeat split; try reflexivity; vm_compute; discriminate.
  - rewrite other_count_cons.
    assert (Hr := category_count_range lower e).
    change (sum_Z (map (fun e => 1 - category_count lower e)%Z (e :: exts)))
      with ((1 - category_count lower e)
            + sum_Z (map (fun e => 1 - category_count lower e)%Z exts))%Z.
    cbn [filter]. unfold len in *. cbn [length] in *.
    split; [lia|]. split; [|split].
    + destruct (Z.eqb_spec (category_count lower e) 0); cbn [length]; lia.
    + intro H. rewrite IH3 by (intros x Hx; apply H; now right).
      assert (He := H e (or_introl eq_refl)).
      destruct (Z.eqb_spec (category_count lower e) 0); cbn [length]; lia.
    + lia.
Qed.

(** ** Row numbers *)

Lemma enumerate_nth {A : Type} (l : list A) (start : Z) (i : nat) (x : A) :
  nth_error l i = Some x ->
  nth_error (enumerate start l) i = Some ((start + Z.of_nat i)%Z, x).
Proof.
  revert start i; induction l as [|y l IH]; intros start [|i] H;
    try discriminate H.
  - injection H as ->. simpl. now rewrite Z.add_0_r.
  - simpl in H. cbn [enumerate nth_error]. rewrite (IH _ _ H).
    do 2 f_equal. lia.
Qed.

(** X19. Rows are numbered from 1 in list order. The row at position [i]
    (counting from 0) of the table is the row of the record at position [i] of
    the sorted list, and the number in its first cell is [i + 1]. *)
Theorem rows_numbered_from_one (exts : list ext) (i : nat) (e : ext) :
  nth_error exts i = Some e ->
  nth_error (table_rows exts) i = Some (table_row ((Z.of_nat i + 1)%Z, e))
  /\ starts_with (ljust 6 (str_of_int (Z.of_nat i + 1))) (table_row ((Z.of_nat i + 1)%Z, e))
     = true.
Proof.
  intro H. split.
  - unfold table_rows. rewrite nth_error_map, (enumerate_nth exts 1 i e H).
    cbn [option_map]. do 3 f_equal. lia.
  - apply starts_with_prefix. unfold table_row. eexists. reflexivity.
Qed.

(** ** The further hypotheses hold of the sample inputs *)

Lemma mixed_keys_distinct : NoDup (map fst mixed_items).
Proof.
  repeat (constructor;
          [intro H; cbn [map fst mixed_items In] in H;
           repeat (destruct H as [H|H]; [vm_compute in H; discriminate H|]); exact H|]).
  constructor.
Qed.

Lemma zeta_beta_names_distinct : NoDup (map name zeta_first).
Proof.
  repeat (constructor;
          [intro H; cbn [map name zeta_first In] in H;
           repeat (destruct H as [H|H]; [vm_compute in H; discriminate H|]); exact H|]).
  constructor.
Qed.

(** X1 on a file that holds a JSON list. *)
Lemma not_a_mapping_on_a_list :
  (path_exists (world_with (JList []) stamp1) extensions_json_path = true
   /\ json_load (world_with (JList []) stamp1) extensions_json_path = inr (JList [])
   /\ getsize (world_with (JList []) stamp1) extensions_json_path = inr 2%Z
   /\ is_dict (JList []) = false)
  /\ exists out,
       main ascii_lower (world_with (JList []) stamp1) = Some out
       /\ exit_code out = 1%Z
       /\ In (Stdout (error_msg (world_with (JList []) stamp1)
                        (AttributeError
                           (utf8 "'" ++ type_name (JList [])
                            ++ utf8 "' object has no attribute 'items'"))))
             (trace out)
       /\ ~ In ReadClock (trace out)
       /\ written output_path (trace out) = []
       /\ written analysis_path (trace out) = []
       /\ (write_error (world_with (JList []) stamp1) error_path = None ->
           written error_path (trace out)
           = [error_msg (world_with (JList []) stamp1)
                (AttributeError
                   (utf8 "'" ++ type_name (JList [])
                    ++ utf8 "' object has no attribute 'items'"))]).
Proof.
  split.
  - repeat split.
  - exact (not_a_mapping_fails ascii_lower (world_with (JList []) stamp1) (JList []) 2
             eq_refl eq_refl eq_refl eq_refl).
Defined.

(** X2 on a file that does not parse. *)
Lemma load_failure_on_unreadable :
  (path_exists world_unreadable extensions_json_path = true
   /\ json_load world_unreadable extensions_json_path
      = inl (EnvironmentError (utf8 "Expecting value: line 1 column 1 (char 0)")))
  /\ exists out,
       main ascii_lower world_unreadable = Some out
       /\ exit_code out = 1%Z
       /\ occurs (exn_str (EnvironmentError
                             (utf8 "Expecting value: line 1 column 1 (char 0)")))
                 (error_msg world_unreadable
                    (EnvironmentError (utf8 "Expecting value: line 1 column 1 (char 0)")))
       /\ In (Stdout (error_msg world_unreadable
                        (EnvironmentError
                           (utf8 "Expecting value: line 1 column 1 (char 0)"))))
             (trace out)
       /\ ~ In (GetSize extensions_json_path) (trace out)
       /\ written output_path (trace out) = []
       /\ written analysis_path (trace out) = []
       /\ (write_error world_unreadable error_path = None ->
           written error_path (trace out)
           = [error_msg world_unreadable
                (EnvironmentError (utf8 "Expecting value: line 1 column 1 (char 0)"))]).
Proof.
  split.
  - repeat split.
  - exact (load_failure_fails ascii_lower world_unreadable
             (EnvironmentError (utf8 "Expecting value: line 1 column 1 (char 0)"))
             eq_refl eq_refl).
Defined.

(** X3 on the two-record scenario with a listing that cannot be written. *)
Lemma listing_write_failure_on_alpha :
  (path_exists (world_failing (JDict alpha_items) stamp1 output_path)
               extensions_json_path = true
   /\ json_load (world_failing (JDict alpha_items) stamp1 output_path)
                extensions_json_path = inr (JDict alpha_items)
   /\ getsize (world_failing (JDict alpha_items) stamp1 output_path)
              extensions_json_path = inr 2%Z
   /\ extensions alpha_items = Some [alpha1; alpha2]
   /\ write_error (world_failing (JDict alpha_items) stamp1 output_path) output_path
      = Some denied)
  /\ exists out,
       main ascii_lower (world_failing (JDict alpha_items) stamp1 output_path) = Some out
       /\ exit_code out = 1%Z
       /\ In (FileWriteFailed output_path
                (output ascii_lower
                   (clock (world_failing (JDict alpha_items) stamp1 output_path))
                   [alpha1; alpha2]))
             (trace out)
       /\ In (Stdout (error_msg (world_failing (JDict alpha_items) stamp1 output_path)
                        denied))
             (trace out)
       /\ (forall c, ~ In (FileWrite analysis_path c) (trace out))
       /\ (forall c, ~ In (FileWriteFailed analysis_path c) (trace out))
       /\ written output_path (trace out) = [].
Proof.
  split.
  - repeat split.
  - exact (listing_write_failure_stops_the_run ascii_lower
             (world_failing (JDict alpha_items) stamp1 output_path)
             alpha_items 2 [alpha1; alpha2] denied
             eq_refl eq_refl eq_refl eq_refl eq_refl).
Defined.

(** X4 on the two-record scenario with an analysis that cannot be written. *)
Lemma analysis_write_failure_on_alpha :
  (path_exists (world_failing (JDict alpha_items) stamp1 analysis_path)
               extensions_json_path = true
   /\ json_load (world_failing (JDict alpha_items) stamp1 analysis_path)
                extensions_json_path = inr (JDict alpha_items)
   /\ getsize (world_failing (JDict alpha_items) stamp1 analysis_path)
              extensions_json_path = inr 2%Z
   /\ extensions alpha_items = Some [alpha1; alpha2]
   /\ write_error (world_failing (JDict alpha_items) stamp1 analysis_path) output_path
      = None
   /\ write_error (world_failing (JDict alpha_items) stamp1 analysis_path) analysis_path
      = Some denied)
  /\ exists out,
       main ascii_lower (world_failing (JDict alpha_items) stamp1 analysis_path)
       = Some out
       /\ exit_code out = 1%Z
       /\ written output_path (trace out)
          = [output ascii_lower
               (clock (world_failing (JDict alpha_items) stamp1 analysis_path))
               [alpha1; alpha2]]
       /\ written analysis_path (trace out) = []
       /\ In (FileWriteFailed analysis_path (analysis ascii_lower [alpha1; alpha2]))
             (trace out)
       /\ In (Stdout (error_msg (world_failing (JDict alpha_items) stamp1 analysis_path)
                        denied))
             (trace out).
Proof.
  split.
  - repeat split.
  - exact (analysis_write_failure_leaves_the_listing ascii_lower
             (world_failing (JDict alpha_items) stamp1 analysis_path)
             alpha_items 2 [alpha1; alpha2] denied
             eq_refl eq_refl eq_refl eq_refl eq_refl eq_refl).
Defined.

(** X5 on the run of the two-record scenario. *)
Lemma run_outcomes_on_alpha :
  exists out,
    main ascii_lower (world_with (JDict alpha_items) stamp1) = Some out
    /\ (exit_code out = 0%Z \/ exit_code out = 1%Z)
    /\ (exit_code out = 0%Z -> written analysis_path (trace out) <> [])
    /\ (forall c, In c (written analysis_path (trace out)) ->
                  (exit_code out = 0%Z <->
                   stdout_error (world_with (JDict alpha_items) stamp1) c = None))
    /\ (written analysis_path (trace out) <> [] ->
        written output_path (trace out) <> [])
    /\ (exit_code out = 0%Z -> written error_path (trace out) = [])
    /\ (exit_code out = 1%Z ->
        write_error (world_with (JDict alpha_items) stamp1) error_path = None ->
        exists c, written error_path (trace out) = [c])
    /\ written extensions_json_path (trace out) = [].
Proof.
  destruct (main_completes ascii_lower alpha_items stamp1 [alpha1; alpha2] eq_refl)
    as (out & Hm & _).
  exists out. split.
  - exact Hm.
  - exact (run_outcomes ascii_lower (world_with (JDict alpha_items) stamp1) out Hm).
Defined.

(** X17 on the run of the two-record scenario. *)
Lemma successful_run_on_alpha :
  exists out,
    (main ascii_lower (world_with (JDict alpha_items) stamp1) = Some out
     /\ exit_code out = 0%Z)
    /\ exists pairs exts,
         path_exists (world_with (JDict alpha_items) stamp1) extensions_json_path = true
         /\ json_load (world_with (JDict alpha_items) stamp1) extensions_json_path
            = inr (JDict pairs)
         /\ extensions pairs = Some exts
         /\ write_error (world_with (JDict alpha_items) stamp1) output_path = None
         /\ write_error (world_with (JDict alpha_items) stamp1) analysis_path = None
         /\ written output_path (trace out)
            = [output ascii_lower (clock (world_with (JDict alpha_items) stamp1)) exts]
         /\ written analysis_path (trace out) = [analysis ascii_lower exts]
         /\ written error_path (trace out) = [].
Proof.
  destruct (main_completes ascii_lower alpha_items stamp1 [alpha1; alpha2] eq_refl)
    as (out & Hm & Hcode & _).
  exists out. split.
  - split; [exact Hm | exact Hcode].
  - exact (successful_run ascii_lower (world_with (JDict alpha_items) stamp1) out
             Hm Hcode).
Defined.

(** X10 on [mixed_items]. *)
Lemma record_ids_on_mixed_items :
  (NoDup (map fst mixed_items) /\ extensions mixed_items = Some mixed_exts)
  /\ NoDup (map id mixed_exts)
  /\ Permutation (map id mixed_exts) (map fst (filter is_object_entry mixed_items)).
Proof.
  split.
  - split; [exact mixed_keys_distinct | reflexivity].
  - exact (record_ids_are_distinct mixed_items mixed_exts mixed_keys_distinct eq_refl).
Defined.

(** X13 on two records given in either order. *)
Lemma sort_forgets_on_zeta_beta :
  (StronglySorted name_le beta_first
   /\ Permutation zeta_first beta_first /\ NoDup (map name zeta_first))
  /\ sort_by_name beta_first = beta_first
  /\ sort_by_name (sort_by_name zeta_first) = sort_by_name zeta_first
  /\ sort_by_name zeta_first = sort_by_name beta_first.
Proof.
  assert (Hsorted : StronglySorted name_le beta_first).
  { repeat constructor; try (apply str_ltb_le; reflexivity). }
  split; [|split; [|split]].
  - split; [exact Hsorted | split; [apply perm_swap | exact zeta_beta_names_distinct]].
  - exact (proj1 (sort_forgets_the_order beta_first zeta_first) Hsorted).
  - exact (proj1 (proj2 (sort_forgets_the_order zeta_first beta_first))).
  - exact (proj2 (proj2 (sort_forgets_the_order zeta_first beta_first))
             (perm_swap _ _ _) zeta_beta_names_distinct).
Defined.

(** X15 on an object whose flag is false. *)
Lemma enabled_on_beta :
  make_ext (utf8 "beta.one") beta_object = Some beta_record
  /\ (disabled_exts [beta_record] = [beta_record] <->
      status beta_record = utf8 "비활성화")
  /\ (disabled_exts [beta_record] = [] <-> status beta_record = utf8 "활성화")
  /\ (dict_lookup (utf8 "enabled") beta_object = None ->
      status beta_record = utf8 "활성화")
  /\ (forall s, dict_lookup (utf8 "enabled") beta_object = Some (JStr s) -> s <> [] ->
                status beta_record = utf8 "활성화")
  /\ (dict_lookup (utf8 "enabled") beta_object = Some JNull ->
      status beta_record = utf8 "비활성화")
  /\ (dict_lookup (utf8 "enabled") beta_object = Some (JInt 0) ->
      status beta_record = utf8 "비활성화").
Proof.
  split.
  - reflexivity.
  - exact (enabled_is_tested_for_truth (utf8 "beta.one") beta_object beta_record eq_refl).
Defined.

(** X16 on a mapping of two plain values. *)
Lemma no_objects_on_plain_items :
  forallb (fun kv => negb (is_object_entry kv)) plain_items = true
  /\ extensions plain_items = Some []
  /\ table_rows [] = []
  /\ other_count ascii_lower [] = 0%Z
  /\ recommended_removals ascii_lower [] = 0%Z
  /\ kept ascii_lower [] = 0%Z
  /\ occurs (utf8 "   → 모든 확장 프로그램이 활성화되어 있습니다.") (analysis ascii_lower [])
  /\ occurs (utf8 "   → 중복된 확장 프로그램이 없습니다.") (analysis ascii_lower [])
  /\ occurs (utf8 "- 현재 설치된 확장 프로그램이 적절하게 관리되고 있습니다.")
            (analysis ascii_lower []).
Proof.
  split.
  - reflexivity.
  - exact (no_objects_no_records ascii_lower plain_items eq_refl).
Defined.

(** X19 on the second record of [mixed_exts]. *)
Lemma rows_numbered_on_mixed_exts :
  nth_error mixed_exts 1
  = Some (mk_ext (utf8 "beta.two") (utf8 "Beta") (utf8 "N/A") (utf8 "2") (JBool true))
  /\ nth_error (table_rows mixed_exts) 1
     = Some (table_row
               ((Z.of_nat 1 + 1)%Z,
                mk_ext (utf8 "beta.two") (utf8 "Beta") (utf8 "N/A") (utf8 "2")
                       (JBool true)))
  /\ starts_with (ljust 6 (str_of_int (Z.of_nat 1 + 1)))
                 (table_row
                    ((Z.of_nat 1 + 1)%Z,
                     mk_ext (utf8 "beta.two") (utf8 "Beta") (utf8 "N/A") (utf8 "2")
                            (JBool true)))
     = true.
Proof.
  split.
  - reflexivity.
  - exact (rows_numbered_from_one mixed_exts 1
             (mk_ext (utf8 "beta.two") (utf8 "Beta") (utf8 "N/A") (utf8 "2") (JBool true))
             eq_refl).
Defined.

(** X20 on the two-record scenario with a console that cannot show it. *)
Lemma print_failure_on_alpha :
  (path_exists (world_mute (JDict alpha_items) stamp1) extensions_json_path = true
   /\ json_load (world_mute (JDict alpha_items) stamp1) extensions_json_path
      = inr (JDict alpha_items)
   /\ getsize (world_mute (JDict alpha_items) stamp1) extensions_json_path = inr 2%Z
   /\ extensions alpha_items = Some [alpha1; alpha2]
   /\ write_error (world_mute (JDict alpha_items) stamp1) output_path = None
   /\ write_error (world_mute (JDict alpha_items) stamp1) analysis_path = None
   /\ stdout_error (world_mute (JDict alpha_items) stamp1)
                   (analysis ascii_lower [alpha1; alpha2]) = Some unencodable)
  /\ exists out,
       main ascii_lower (world_mute (JDict alpha_items) stamp1) = Some out
       /\ exit_code out = 1%Z
       /\ written output_path (trace out)
          = [output ascii_lower (clock (world_mute (JDict alpha_items) stamp1))
               [alpha1; alpha2]]
       /\ written analysis_path (trace out) = [analysis ascii_lower [alpha1; alpha2]]
       /\ In (StdoutFailed (analysis ascii_lower [alpha1; alpha2])) (trace out)
       /\ In (Stdout (error_msg (world_mute (JDict alpha_items) stamp1) unencodable))
             (trace out)
       /\ (write_error (world_mute (JDict alpha_items) stamp1) error_path = None ->
           written error_path (trace out)
           = [error_msg (world_mute (JDict alpha_items) stamp1) unencodable]).
Proof.
  split.
  - repeat split.
  - exact (print_failure_after_the_documents ascii_lower
             (world_mute (JDict alpha_items) stamp1)
             alpha_items 2 [alpha1; alpha2] unencodable
             eq_refl eq_refl eq_refl eq_refl eq_refl eq_refl eq_refl).
Defined.
